(** * A shallow embedding of the wx orchestration core

    This development models the parts of [wx/orchestrator.py],
    [wx/forecaster.py] and [wx/openrouter_client.py] that build Feature
    Packs, isolate fetch failures, run the AI provider chain with its
    deterministic fallback, and aggregate worldview statistics.

    Python values that cross these functions (JSON documents, Feature Packs,
    fetcher results) are modelled by [pyval]; Python dicts keep insertion
    order, so they are association lists with unique keys.  Exceptions are
    values of [exn], and code that may raise returns [res A]. *)

From Stdlib Require Import String Ascii List ZArith QArith Qround Bool Lia.
From Stdlib Require Import Sorting.Permutation Sorting.Sorted.
Import ListNotations.

#[local] Set Warnings "-register-all".

Open Scope string_scope.

(* ------------------------------------------------------------------ *)
(** ** String builtins *)

Module Str.

(** [str.isspace()] on the code points an [ascii] can hold. *)
Definition is_space (c : ascii) : bool :=
  let n := nat_of_ascii c in
  ((9 <=? n) && (n <=? 13))%nat || ((28 <=? n) && (n <=? 32))%nat
  || (n =? 133)%nat || (n =? 160)%nat.

Fixpoint lstrip (s : string) : string :=
  match s with
  | EmptyString => EmptyString
  | String c rest => if is_space c then lstrip rest else s
  end.

Definition rstrip (s : string) : string :=
  string_of_list_ascii
    (rev (list_ascii_of_string (lstrip (string_of_list_ascii
      (rev (list_ascii_of_string s)))))).

(** [str.strip()] *)
Definition strip (s : string) : string := rstrip (lstrip s).

(** [s.startswith(p)] *)
Definition startswith (s p : string) : bool := String.prefix p s.

(** [sep.join(xs)] *)
Fixpoint join (sep : string) (xs : list string) : string :=
  match xs with
  | [] => ""
  | [x] => x
  | x :: rest => x ++ sep ++ join sep rest
  end.

(** Line boundaries of [str.splitlines()] among the [ascii] code points. *)
Definition is_line_break (c : ascii) : bool :=
  let n := nat_of_ascii c in
  (n =? 10)%nat || (n =? 11)%nat || (n =? 12)%nat || (n =? 13)%nat
  || (n =? 28)%nat || (n =? 29)%nat || (n =? 30)%nat || (n =? 133)%nat.

(** [str.splitlines()]: [cur] is the reversed current line; a final line
    is only emitted when it is not empty; CR followed by LF is one boundary. *)
Fixpoint splitlines_aux (cs : list ascii) (cur : list ascii) : list string :=
  match cs with
  | [] => match cur with [] => [] | _ => [string_of_list_ascii (rev cur)] end
  | c :: rest =>
      if is_line_break c then
        let rest' := match rest with
                     | c2 :: rest2 =>
                         if (nat_of_ascii c =? 13)%nat && (nat_of_ascii c2 =? 10)%nat
                         then rest2 else rest
                     | [] => rest
                     end in
        string_of_list_ascii (rev cur) :: splitlines_aux rest' []
      else splitlines_aux rest (c :: cur)
  end.

Definition splitlines (s : string) : list string :=
  splitlines_aux (list_ascii_of_string s) [].

Fixpoint digits_of_pos (fuel : nat) (n : Z) (acc : string) : string :=
  match fuel with
  | O => acc
  | S fuel' =>
      let d := ascii_of_nat (48 + Z.to_nat (Z.modulo n 10)) in
      let q := Z.div n 10 in
      if Z.eqb q 0 then String d acc else digits_of_pos fuel' q (String d acc)
  end.

(** [str(n)] for a Python [int]. *)
Definition string_of_Z (n : Z) : string :=
  if Z.ltb n 0 then "-" ++ digits_of_pos (Z.to_nat (Z.log2 (- n)) + 1) (- n) ""
  else digits_of_pos (Z.to_nat (Z.log2 n) + 1) n "".

(** [sorted(xs)] on strings, which Python orders by code point; an
    insertion sort, which gives the same list as any sort on a list
    without duplicates. *)
Fixpoint insert_sorted (x : string) (l : list string) : list string :=
  match l with
  | [] => [x]
  | y :: rest => if String.leb x y then x :: l else y :: insert_sorted x rest
  end.

Definition sort_strings (l : list string) : list string :=
  fold_right insert_sorted [] l.

(** [str.lower()] on the code points an [ascii] can hold. *)
Definition lower_char (c : ascii) : ascii :=
  let n := nat_of_ascii c in
  if ((65 <=? n) && (n <=? 90))%nat
     || ((192 <=? n) && (n <=? 222) && negb (n =? 215))%nat
  then ascii_of_nat (n + 32) else c.

Definition lower (s : string) : string :=
  string_of_list_ascii (map lower_char (list_ascii_of_string s)).

(** [s.rstrip(c)] for a single character [c]: every trailing [c] goes. *)
Fixpoint drop_while (f : ascii -> bool) (l : list ascii) : list ascii :=
  match l with
  | [] => []
  | c :: rest => if f c then drop_while f rest else l
  end.

Definition rstrip_char (c : ascii) (s : string) : string :=
  string_of_list_ascii
    (rev (drop_while (fun x => Ascii.eqb x c) (rev (list_ascii_of_string s)))).

(** A string that [str.splitlines()] keeps in one piece. *)
Definition no_line_breaks (s : string) : Prop :=
  Forall (fun c => is_line_break c = false) (list_ascii_of_string s).

End Str.

(* ------------------------------------------------------------------ *)
(** ** Python values *)

Module Py.

Inductive pyval : Type :=
| PNone
| PBool (b : bool)
| PInt (z : Z)
| PFloat (q : Q)
| PStr (s : string)
| PList (xs : list pyval)
| PDict (kvs : list (string * pyval)).

(** Python truthiness ([bool(v)]). *)
Definition truthy (v : pyval) : bool :=
  match v with
  | PNone => false
  | PBool b => b
  | PInt z => negb (Z.eqb z 0)
  | PFloat q => negb (Qeq_bool q 0)
  | PStr s => negb (String.eqb s "")
  | PList xs => match xs with [] => false | _ => true end
  | PDict kvs => match kvs with [] => false | _ => true end
  end.

(** [v in (None, [], {})]: membership tests with [==], which is equality
    with [None], with the empty list or with the empty dict. *)
Definition in_none_empty (v : pyval) : bool :=
  match v with
  | PNone => true
  | PList [] => true
  | PDict [] => true
  | _ => false
  end.

(** [d.get(k)] on a dict. *)
Fixpoint dict_get (kvs : list (string * pyval)) (k : string) : pyval :=
  match kvs with
  | [] => PNone
  | (k', v) :: rest => if String.eqb k k' then v else dict_get rest k
  end.

(** [d[k] = v]: replaces the value in place, or appends a new key. *)
Fixpoint dict_set {A} (kvs : list (string * A)) (k : string) (v : A)
  : list (string * A) :=
  match kvs with
  | [] => [(k, v)]
  | (k', v') :: rest =>
      if String.eqb k k' then (k', v) :: rest else (k', v') :: dict_set rest k v
  end.

Definition is_dict (v : pyval) : bool :=
  match v with PDict _ => true | _ => false end.

Definition is_list (v : pyval) : bool :=
  match v with PList _ => true | _ => false end.

(** [isinstance(v, (int, float))]; [bool] is a subclass of [int]. *)
Definition is_number (v : pyval) : bool :=
  match v with PBool _ | PInt _ | PFloat _ => true | _ => false end.

(** [a or b] *)
Definition py_or (a b : pyval) : pyval := if truthy a then a else b.

(** Exceptions: the class name, [str(exc)] and, for [OpenRouterError],
    its [status_code]. *)
Record exn := mkExn {
  exn_class : string;
  exn_msg : string;
  exn_status : option Z
}.

Definition res (A : Type) : Type := (exn + A)%type.

Definition ret {A} (a : A) : res A := inr a.
Definition raise {A} (e : exn) : res A := inl e.
Definition bind {A B} (m : res A) (k : A -> res B) : res B :=
  match m with inl e => inl e | inr a => k a end.

Notation "x <- m ;; k" := (bind m (fun x => k))
  (at level 61, m at next level, right associativity).

(** [type(v).__name__] *)
Definition type_name (v : pyval) : string :=
  match v with
  | PNone => "NoneType"
  | PBool _ => "bool"
  | PInt _ => "int"
  | PFloat _ => "float"
  | PStr _ => "str"
  | PList _ => "list"
  | PDict _ => "dict"
  end.

(** The [AttributeError] of [v.get] on a value that is not a dict. *)
Definition no_get_error (v : pyval) : exn :=
  mkExn "AttributeError" ("'" ++ type_name v ++ "' object has no attribute 'get'") None.

(** [getattr(v, "get")(k)]: only dicts have [.get]. *)
Definition py_get (v : pyval) (k : string) : res pyval :=
  match v with
  | PDict kvs => ret (dict_get kvs k)
  | _ => raise (no_get_error v)
  end.

End Py.

Import Py.

(* ------------------------------------------------------------------ *)
(** ** Fetch coordination: [Orchestrator._maybe_fetch] *)

Module Fetch.

(** What a fetch thunk does when called. *)
Inductive outcome : Type :=
| Returns (v : pyval)
| Raises (e : exn).

(** [wx.fetchers.FetchResult] *)
Record FetchResult := mkFetchResult {
  fr_name : string;
  fr_elapsed : Q;
  fr_succeeded : bool;
  fr_detail : option string
}.

(** The mutable bookkeeping [_maybe_fetch] writes: [timings] and
    [debug_info["fetchers"]]. *)
Record diag := mkDiag {
  timings : list (string * Q);
  fetchers : list FetchResult
}.

(** [Orchestrator._maybe_fetch name func timings debug_info]; [elapsed] is
    the measured [time.perf_counter()] difference. *)
Definition maybe_fetch (name : string) (func : outcome) (elapsed : Q) (d : diag)
  : pyval * diag :=
  let '(result, succeeded, detail) :=
    match func with
    | Returns r => (r, negb (in_none_empty r), @None string)
    | Raises e => (PNone, false, Some (exn_msg e))
    end in
  (result,
   mkDiag (dict_set (timings d) name elapsed)
          (fetchers d ++ [mkFetchResult name elapsed succeeded detail])).

(** A fetch task: its name, what its thunk does, and how long it took. *)
Record task := mkTask {
  t_name : string;
  t_func : outcome;
  t_elapsed : Q
}.

(** Running a batch of tasks through the coordinator, one after the other,
    as the handlers do. *)
Fixpoint run_tasks (ts : list task) (d : diag) : list pyval * diag :=
  match ts with
  | [] => ([], d)
  | t :: rest =>
      let '(r, d1) := maybe_fetch (t_name t) (t_func t) (t_elapsed t) d in
      let '(rs, d2) := run_tasks rest d1 in
      (r :: rs, d2)
  end.

(** The diagnostic entry the coordinator records for one task. *)
Definition expected_entry (t : task) : FetchResult :=
  match t_func t with
  | Returns r => mkFetchResult (t_name t) (t_elapsed t) (negb (in_none_empty r)) None
  | Raises e => mkFetchResult (t_name t) (t_elapsed t) false (Some (exn_msg e))
  end.

Definition expected_result (t : task) : pyval :=
  match t_func t with Returns r => r | Raises _ => PNone end.

End Fetch.

(* ------------------------------------------------------------------ *)
(** ** [wx/openrouter_client.py] *)

Module OpenRouter.

Definition RETRYABLE_STATUS_CODES : list Z := [429; 500; 502; 503; 504]%Z.
Definition DEFAULT_TIMEOUT : Q := 30.

(** [OpenRouterConfig], with the dataclass defaults of [timeout],
    [retries] and [backoff_factor] supplied by [default_config]. *)
Record OpenRouterConfig := mkConfig {
  api_key : string;
  base_url : string;
  model : string;
  temperature : Q;
  max_tokens : Z;
  timeout : Q;
  retries : Z;
  backoff_factor : Q
}.

Definition default_config (api_key base_url model : string) (temperature : Q)
  (max_tokens : Z) : OpenRouterConfig :=
  mkConfig api_key base_url model temperature max_tokens DEFAULT_TIMEOUT 3 (3 # 4).

(** What one [httpx.post] call does: a response with its status code and
    its JSON body ([None] when [response.json()] raises
    [JSONDecodeError]), an [httpx.TimeoutException], or another
    [httpx.TransportError]. *)
Inductive post_outcome : Type :=
| HttpResponse (status : Z) (body : option pyval)
| HttpTimeout
| HttpTransport.

(** Observable effects of the provider chain: an HTTP request for a given
    attempt, a [time.sleep], and a call to the Gemini client. *)
Inductive event : Type :=
| Post (attempt : Z)
| Sleep (secs : Q)
| GeminiCall.

(** [OpenRouterResponse]; the response headers, which come from the
    answer to attempt [resp_attempts], are read by the forecaster from
    its environment ([openrouter_headers]). *)
Record OpenRouterResponse := mkResponse {
  resp_text : string;
  resp_model : pyval;
  resp_raw : pyval;
  resp_usage : pyval;
  resp_attempts : Z
}.

Definition openrouter_error (msg : string) (status : option Z) : exn :=
  mkExn "OpenRouterError" msg status.

(** [response.raise_for_status()] passes exactly on 2xx codes. *)
Definition is_success (status : Z) : bool := (200 <=? status)%Z && (status <? 300)%Z.

Definition mem_Z (z : Z) (l : list Z) : bool := existsb (Z.eqb z) l.

(** [part.get("text", "")] for each mapping part, then [""].join(...),
    which raises [TypeError] on a non-string item. *)
Fixpoint join_text_parts (parts : list pyval) : res string :=
  match parts with
  | [] => ret ""
  | PDict kvs :: rest =>
      let t := match find (fun kv => String.eqb (fst kv) "text") kvs with
               | Some (_, v) => v | None => PStr "" end in
      match t with
      | PStr s => r <- join_text_parts rest ;; ret (s ++ r)
      | _ => raise (mkExn "TypeError" "sequence item: expected str instance" None)
      end
  | _ :: rest => join_text_parts rest
  end.

(** [_extract_first_message(data)] *)
Definition extract_first_message (data : pyval) : res (option string) :=
  choices <- py_get data "choices" ;;
  match choices with
  | PList (c0 :: _) =>
      let message := match c0 with PDict kvs => dict_get kvs "message" | _ => PNone end in
      match message with
      | PDict mkvs =>
          match dict_get mkvs "content" with
          | PStr s => let t := Str.strip s in
                      ret (if String.eqb t "" then None else Some t)
          | PList parts =>
              combined <- join_text_parts parts ;;
              let t := Str.strip combined in
              ret (if String.eqb t "" then None else Some t)
          | _ => ret None
          end
      | _ => ret None
      end
  | _ => ret None
  end.

(** [data.get(k, default)] *)
Definition py_get_default (v : pyval) (k : string) (default : pyval) : res pyval :=
  match v with
  | PDict kvs =>
      ret (match find (fun kv => String.eqb (fst kv) k) kvs with
           | Some (_, x) => x | None => default end)
  | _ => raise (no_get_error v)
  end.

(** The body of [for attempt in range(1, config.retries + 1)] in
    [chat_completion]: [fuel] counts the iterations left, [backoff] and
    [last_status] are the loop's mutable locals.  [post a] is what the
    server does on attempt [a].  [time.sleep] is recorded as an event; the
    [ValueError] it raises on a negative length is not modelled, since the
    only configuration the repository builds ([_build_openrouter_config])
    has [backoff_factor = 0.75]. *)
Fixpoint completion_loop (cfg : OpenRouterConfig) (post : Z -> post_outcome)
  (fuel : nat) (attempt : Z) (backoff : Q) (last_status : option Z)
  : list event * res OpenRouterResponse :=
  match fuel with
  | O => ([], raise (openrouter_error "OpenRouter request exhausted retries" last_status))
  | S fuel' =>
      let retry (st : option Z) :=
        let '(ev, r) := completion_loop cfg post fuel' (attempt + 1) (backoff * 2) st in
        (Post attempt :: Sleep backoff :: ev, r) in
      match post attempt with
      | HttpResponse status body =>
          if negb (is_success status) then
            if mem_Z status RETRYABLE_STATUS_CODES && (attempt <? retries cfg)%Z
            then retry (Some status)
            else ([Post attempt],
                  raise (openrouter_error ("OpenRouter HTTP " ++ Str.string_of_Z status)
                                          (Some status)))
          else
            match body with
            | None =>
                if (attempt <? retries cfg)%Z then retry last_status
                else ([Post attempt],
                      raise (openrouter_error "OpenRouter returned invalid JSON" (Some status)))
            | Some data =>
                ([Post attempt],
                 text <- extract_first_message data ;;
                 match text with
                 | None => raise (openrouter_error "OpenRouter response missing content"
                                                   (Some status))
                 | Some t =>
                     m <- py_get_default data "model" (PStr (model cfg)) ;;
                     usage <- py_get data "usage" ;;
                     ret (mkResponse t m data usage attempt)
                 end)
            end
      | HttpTimeout | HttpTransport =>
          if (attempt <? retries cfg)%Z then retry last_status
          else ([Post attempt], raise (openrouter_error "OpenRouter request failed" None))
      end
  end.

(** [chat_completion(messages, config=config)]; the messages only shape
    the request body, which the server's behaviour [post] already
    accounts for. *)
Definition chat_completion (cfg : OpenRouterConfig) (post : Z -> post_outcome)
  : list event * res OpenRouterResponse :=
  completion_loop cfg post (Z.to_nat (retries cfg)) 1 (backoff_factor cfg) None.


(** Whether the loop goes round again after attempt [attempt] with
    outcome [o]. *)
Definition continue_after (retries : Z) (attempt : Z) (o : post_outcome) : bool :=
  match o with
  | HttpResponse status body =>
      if negb (is_success status)
      then mem_Z status RETRYABLE_STATUS_CODES && (attempt <? retries)%Z
      else match body with None => (attempt <? retries)%Z | Some _ => false end
  | HttpTimeout | HttpTransport => (attempt <? retries)%Z
  end.

(** How the call ends when the loop stops at attempt [attempt]. *)
Definition stop_result (cfg : OpenRouterConfig) (attempt : Z) (o : post_outcome)
  : res OpenRouterResponse :=
  match o with
  | HttpResponse status body =>
      if negb (is_success status) then
        raise (openrouter_error ("OpenRouter HTTP " ++ Str.string_of_Z status) (Some status))
      else
        match body with
        | None => raise (openrouter_error "OpenRouter returned invalid JSON" (Some status))
        | Some data =>
            text <- extract_first_message data ;;
            match text with
            | None => raise (openrouter_error "OpenRouter response missing content"
                                              (Some status))
            | Some t =>
                m <- py_get_default data "model" (PStr (model cfg)) ;;
                usage <- py_get data "usage" ;;
                ret (mkResponse t m data usage attempt)
            end
        end
  | HttpTimeout | HttpTransport => raise (openrouter_error "OpenRouter request failed" None)
  end.

Definition next_status (o : post_outcome) (last_status : option Z) : option Z :=
  match o with
  | HttpResponse status _ => if negb (is_success status) then Some status else last_status
  | _ => last_status
  end.

(** [OpenRouterConfig.chat_url] *)
Definition chat_url (cfg : OpenRouterConfig) : string :=
  Str.rstrip_char "/"%char (base_url cfg) ++ "/chat/completions".

(** The events of a call whose loop runs [n] iterations from attempt
    [attempt] with the current [backoff]: a request per iteration and,
    between two of them, a sleep that doubles each time. *)
Fixpoint retry_trace (backoff : Q) (attempt : Z) (n : nat) : list event :=
  match n with
  | O => []
  | S O => [Post attempt]
  | S n' => Post attempt :: Sleep backoff :: retry_trace (backoff * 2) (attempt + 1) n'
  end.

End OpenRouter.

(* ------------------------------------------------------------------ *)
(** ** [wx/forecaster.py] *)

Module Forecaster.

Import OpenRouter.

Definition DEFAULT_OPENROUTER_MODELS : list string := ["openrouter/auto"].

(** The fields of [wx.config.Settings] the forecaster reads. *)
Record Settings := mkSettings {
  offline : bool;
  units : string;
  style : string;
  persona : string;
  openrouter_api_key : option string;
  openrouter_models : list string;
  openrouter_base_url : string;
  ai_temperature : Q;
  ai_max_tokens : Z;
  gemini_api_key : option string;
  gemini_model : string
}.

(** What the Gemini SDK does: [google.genai] missing, [genai.Client]
    raising, [generate_content] raising, or a response whose [text]
    attribute is the given value. *)
Inductive gemini_backend : Type :=
| GeminiNotInstalled
| GeminiClientFails (msg : string)
| GeminiCallFails (msg : string)
| GeminiReplies (text : pyval).

(** The libraries and services the forecaster calls: [json.loads]
    ([None] when it raises [JSONDecodeError]), [json.dumps], the builtin
    [str] used by f-strings, the OpenRouter server and the Gemini SDK.
    The prompt text only shapes what the two services answer, so it is
    accounted for by [openrouter_post] and [gemini].
    [openrouter_headers a] is [dict(response.headers)] of the server's
    answer to attempt [a]. *)
Record Env := mkEnv {
  json_loads : string -> option pyval;
  json_dumps : pyval -> string;
  py_str : pyval -> string;
  openrouter_post : Z -> post_outcome;
  gemini : gemini_backend;
  openrouter_headers : Z -> pyval
}.

(** [ForecasterResponse] *)
Record ForecasterResponse := mkForecasterResponse {
  sections : pyval;
  confidence : pyval;
  used_feature_fields : pyval;
  bottom_line : pyval;
  raw_text : string;
  provider : string;
  prompt_summary : string;
  meta : pyval
}.

Definition opt_truthy (s : option string) : bool :=
  match s with Some k => negb (String.eqb k "") | None => false end.

(** [Forecaster._build_openrouter_config] (the one-time warning it logs is
    not modelled). *)
Definition build_openrouter_config (st : Settings) : option OpenRouterConfig :=
  match openrouter_api_key st with
  | Some key =>
      if String.eqb key "" then None
      else
        let models := match openrouter_models st with
                      | [] => DEFAULT_OPENROUTER_MODELS | ms => ms end in
        let m := hd "" models in
        let base := if String.eqb (openrouter_base_url st) ""
                    then "https://openrouter.ai/api/v1" else openrouter_base_url st in
        Some (default_config key base m (ai_temperature st) (ai_max_tokens st))
  | None => None
  end.

(** [Forecaster._call_gemini]; the client is created on first use. *)
Definition call_gemini (st : Settings) (env : Env) : list event * res (option string) :=
  match gemini env with
  | GeminiNotInstalled =>
      ([], raise (mkExn "RuntimeError" "google-genai-not-installed" None))
  | _ =>
      if negb (opt_truthy (gemini_api_key st)) then
        ([], raise (mkExn "RuntimeError" "gemini-key-missing" None))
      else
        match gemini env with
        | GeminiClientFails msg =>
            ([], raise (mkExn "RuntimeError" ("gemini-client:" ++ msg) None))
        | GeminiCallFails msg =>
            ([GeminiCall], raise (mkExn "RuntimeError" ("gemini-call:" ++ msg) None))
        | GeminiReplies (PStr t) => ([GeminiCall], ret (Some (Str.strip t)))
        | _ => ([GeminiCall], ret None)
        end
  end.

(** The Gemini half of [_invoke_provider], after the OpenRouter half has
    collected [errors]. *)
Definition invoke_gemini (st : Settings) (env : Env) (errors : list string)
  : list event * res (string * string * pyval) :=
  let no_provider (errs : list string) :=
    raise (mkExn "RuntimeError"
                 (match errs with [] => "no-provider-configured"
                             | _ => Str.join "; " errs end) None) in
  if opt_truthy (gemini_api_key st) then
    let '(ev, r) := call_gemini st env in
    match r with
    | inr (Some text) =>
        if negb (String.eqb text "") then
          (ev, ret (text, "gemini", PDict [("model", PStr (gemini_model st))]))
        else (ev, no_provider (errors ++ ["gemini:no-response"])%list)
    | inr None => (ev, no_provider (errors ++ ["gemini:no-response"])%list)
    | inl e =>
        if String.eqb (exn_class e) "RuntimeError" then
          (ev, no_provider (app errors ["gemini:" ++ exn_msg e]))
        else (ev, raise e)
    end
  else ([], no_provider errors).

(** [Forecaster._invoke_provider]: returns the raw text, the provider
    label and the provider metadata. *)
Definition invoke_provider (st : Settings) (env : Env)
  : list event * res (string * string * pyval) :=
  match build_openrouter_config st with
  | Some cfg =>
      let '(ev, r) := chat_completion cfg (openrouter_post env) in
      match r with
      | inr resp =>
          (ev, ret (resp_text resp, "openrouter:" ++ py_str env (resp_model resp),
                    PDict [("model", resp_model resp); ("usage", resp_usage resp);
                           ("attempts", PInt (resp_attempts resp));
                           ("headers", openrouter_headers env (resp_attempts resp))]))
      | inl e =>
          if String.eqb (exn_class e) "OpenRouterError" then
            let '(ev2, r2) := invoke_gemini st env ["openrouter:" ++ exn_msg e] in
            (app ev ev2, r2)
          else (ev, raise e)
      end
  | None => invoke_gemini st env []
  end.

(** [sorted(set(keys))] *)
Definition sorted_set (l : list string) : list string :=
  Str.sort_strings (nodup string_dec l).

(** The names one top-level entry of a Feature Pack contributes. *)
Definition field_names (key : string) (value : pyval) : list string :=
  if in_none_empty value then []
  else if String.eqb key "units" then ["units"]
  else match value with
       | PDict inner => map (fun kv => key ++ "." ++ fst kv) inner
       | _ => [key]
       end.

(** [Forecaster._enumerate_feature_fields] *)
Definition enumerate_feature_fields (feature_pack : list (string * pyval)) : list string :=
  sorted_set (flat_map (fun kv => field_names (fst kv) (snd kv)) feature_pack).

Definition unit_pack_imperial : pyval :=
  PDict [("temp", PStr "F"); ("wind", PStr "mph"); ("precip", PStr "in")].

Definition FALLBACK_BOTTOM_LINE : string :=
  "Bottom line: wx requires an AI provider configured to deliver a full forecast.".

Definition fallback_sections (used_fields : list string) (explain_mode : bool) : pyval :=
  let summary :=
    if explain_mode then
      [PStr "Explain mode: describing which Feature Pack inputs were available and how they would influence a forecast."]
    else
      [PStr "wx is operating with limited connectivity and cannot reach AI services.";
       PStr "Responding with a conservative qualitative outlook based on provided context only."] in
  PDict [
    ("summary", PList summary);
    ("timeline", PList [PStr "No timeline available without model output."]);
    ("risk_cards", PList [PDict [
        ("hazard", PStr "General");
        ("level", PStr "Low");
        ("drivers", PList [PStr "Insufficient data; AI model unavailable"]);
        ("confidence", PStr "Low confidence; qualitative placeholder.")]]);
    ("confidence", PStr "Confidence limited by offline mode or missing API keys.");
    ("actions", PList [PStr "Monitor trusted weather sources and official alerts.";
                       PStr "Re-run wx with API keys configured for a richer briefing."]);
    ("assumptions", PList [PStr ("Feature Pack fields used: " ++
        match used_fields with [] => "none supplied" | _ => Str.join ", " used_fields end)])].

(** [Forecaster._fallback_response]; of its [payload] the function reads
    the Feature Pack (a dict at every call site) and the explain flag. *)
Definition fallback_response (env : Env) (feature_pack : list (string * pyval))
  (explain_mode : bool) (provider : string) (prompt_summary : string)
  (raw_text : option string) (meta : pyval) : ForecasterResponse :=
  let used_fields := enumerate_feature_fields feature_pack in
  let secs := fallback_sections used_fields explain_mode in
  mkForecasterResponse
    secs
    (PDict [("value", PInt 25); ("rationale", PStr "Offline fallback.")])
    (PList (map PStr used_fields))
    (PStr FALLBACK_BOTTOM_LINE)
    (if opt_truthy raw_text then match raw_text with Some t => t | None => "" end
     else json_dumps env secs)
    provider prompt_summary meta.

(** [Forecaster._strip_fence] *)
Definition strip_fence (text : string) : string :=
  let lines := Str.splitlines text in
  let lines := match lines with
               | l0 :: rest => if Str.startswith l0 "```" then rest else lines
               | [] => lines end in
  let lines := match rev lines with
               | last :: rrest => if Str.startswith last "```" then rev rrest else lines
               | [] => lines end in
  Str.join (String (ascii_of_nat 10) "") lines.

Definition clean_text (raw : string) : string :=
  let cleaned := Str.strip raw in
  if Str.startswith cleaned "```" then strip_fence cleaned else cleaned.

(** [Forecaster._parse_response] *)
Definition parse_response (env : Env) (raw : string) (prompt_summary : string)
  (provider : string) (meta : pyval) : res ForecasterResponse :=
  match json_loads env (clean_text raw) with
  | None =>
      ret (fallback_response env [] false "fallback:unparseable" prompt_summary
                             (Some raw) meta)
  | Some data =>
      secs <- py_get data "sections" ;;
      conf <- py_get data "confidence" ;;
      used <- py_get data "used_feature_fields" ;;
      bl <- py_get data "bottom_line" ;;
      let secs := py_or secs (PDict []) in
      let conf := py_or conf (PDict [("value", PInt 30);
                                     ("rationale", PStr "Model confidence not supplied.")]) in
      let used := py_or used (PList []) in
      let bl := py_or bl (PStr "No bottom line provided.") in
      ret (mkForecasterResponse secs conf (if is_list used then used else PList [])
                                bl raw provider prompt_summary meta)
  end.

(** [Forecaster._compose_prompt_summary] *)
Definition compose_prompt_summary (query intent : string) (verbose explain : bool) : string :=
  Str.join " | " ([intent; query] ++ (if verbose then ["verbose"] else [])
                                  ++ (if explain then ["explain"] else []))%list.

(** [Forecaster.generate]: the provider events it causes, and the
    response. *)
Definition generate (st : Settings) (env : Env) (query : string)
  (feature_pack : list (string * pyval)) (intent : string) (verbose explain : bool)
  : list event * ForecasterResponse :=
  let ps := compose_prompt_summary query intent verbose explain in
  let on_error (e : exn) :=
    fallback_response env feature_pack explain ("fallback:" ++ exn_class e) ps
                      (Some (exn_msg e)) (PDict [("error", PStr (exn_msg e))]) in
  if offline st then ([], fallback_response env feature_pack explain "offline" ps None PNone)
  else
    let '(ev, r) := invoke_provider st env in
    match r with
    | inl e => (ev, on_error e)
    | inr (raw, prov, m) =>
        match parse_response env raw ps prov m with
        | inl e => (ev, on_error e)
        | inr resp => (ev, resp)
        end
    end.

(** Every AI provider is unconfigured or has failed: OpenRouter has no
    API key or its call raised, and Gemini has no API key, raised, or
    answered with no text. *)
Definition providers_exhausted (st : Settings) (env : Env) : Prop :=
  (match build_openrouter_config st with
   | None => True
   | Some cfg => exists e, snd (chat_completion cfg (openrouter_post env)) = inl e
   end) /\
  (opt_truthy (gemini_api_key st) = false \/
   match snd (call_gemini st env) with
   | inl _ => True
   | inr None => True
   | inr (Some t) => t = ""
   end).

(** [str(v)]: a [str] is itself, other values go through [py_str]. *)
Definition str_of (env : Env) (v : pyval) : string :=
  match v with PStr s => s | _ => py_str env v end.

(** The items of a list passed to [sep.join], which raises [TypeError]
    on an item that is not a [str]. *)
Fixpoint str_items (xs : list pyval) : res (list string) :=
  match xs with
  | [] => ret []
  | PStr s :: rest => r <- str_items rest ;; ret (s :: r)
  | _ :: _ => raise (mkExn "TypeError" "sequence item: expected str instance" None)
  end.

(** [ForecasterResponse.summary_text] *)
Definition summary_text (env : Env) (secs : pyval) : res string :=
  s <- py_get secs "summary" ;;
  match s with
  | PList xs => items <- str_items xs ;; ret (Str.join " " items)
  | _ => d <- py_get_default secs "summary" (PStr "") ;; ret (str_of env d)
  end.

(** [d.update(other)] for a dict [other]. *)
Definition dict_update (base kvs : list (string * pyval)) : list (string * pyval) :=
  fold_left (fun acc kv => dict_set acc (fst kv) (snd kv)) kvs base.

(** The dict [Forecaster.explain] returns: its ["mode"], ["text"],
    ["meta"] and ["response"] entries. *)
Record Explanation := mkExplanation {
  mode : string;
  text : pyval;
  explain_meta : list (string * pyval);
  response : ForecasterResponse
}.

(** [Forecaster.explain].  The [meta] of a [generate] response is a dict
    or [None]; [meta.update] on another truthy value is modelled as a
    [TypeError]. *)
Definition explain (st : Settings) (env : Env) (question : string)
  (feature_pack : list (string * pyval)) (command : string)
  : list event * res Explanation :=
  let '(ev, r) := generate st env question feature_pack ("explain:" ++ command) true true in
  (ev,
   let prov := if String.eqb (provider r) "" then "offline" else provider r in
   let md := if Str.startswith prov "openrouter" || Str.startswith prov "gemini"
             then "online"
             else if Str.startswith prov "offline" then "offline" else "fallback" in
   summary <- summary_text env (sections r) ;;
   let txt := if String.eqb summary "" then bottom_line r else PStr summary in
   let m := [("provider", PStr prov); ("confidence", confidence r);
             ("used_feature_fields", used_feature_fields r);
             ("bottom_line", bottom_line r); ("prompt_summary", PStr (prompt_summary r))] in
   m <- (if truthy (meta r) then
           match meta r with
           | PDict kvs => ret (dict_update m kvs)
           | _ => raise (mkExn "TypeError" "cannot convert to dict" None)
           end
         else ret m) ;;
   ret (mkExplanation md txt m r)).

End Forecaster.

(* ------------------------------------------------------------------ *)
(** ** [wx/orchestrator.py]: Feature Pack construction *)

Module Orchestrator.

Import Fetch Forecaster.

(** [_unit_pack(units)] *)
Definition unit_pack (units : string) : pyval :=
  if String.eqb units "metric"
  then PDict [("temp", PStr "C"); ("wind", PStr "mps"); ("precip", PStr "mm")]
  else PDict [("temp", PStr "F"); ("wind", PStr "mph"); ("precip", PStr "in")].

(** The world the handlers run in: the forecaster's settings, the
    [trust_tools] flag, what each fetcher's thunk does (by fetch name) and
    how long it takes, and the clock and time-zone libraries used by
    [_build_window]: [now_utc] in epoch seconds, [isoformat] of a UTC
    instant, [_safe_parse_time] giving the parsed instant in epoch seconds
    ([None] when [dateutil] raises; the instant is not yet checked to lie
    in [datetime]'s range), and [ZoneInfo(tz)] ([None] when it raises)
    followed by [astimezone] and [isoformat] at an instant ([None] when
    [astimezone] raises there). Instants are whole seconds. *)
Record World := mkWorld {
  settings : Settings;
  trust_tools : bool;
  fetch : string -> outcome;
  elapsed : string -> Q;
  now_utc : Z;
  isoformat : Z -> string;
  parse_when : string -> option Z;
  zone : string -> option (Z -> option string)
}.

(** [datetime]'s range in epoch seconds: 0001-01-01T00:00:00Z to
    9999-12-31T23:59:59Z. Arithmetic or a time-zone conversion that leaves
    it raises [OverflowError]. *)
Definition MIN_EPOCH : Z := (-62135596800)%Z.
Definition MAX_EPOCH : Z := 253402300799%Z.

Definition in_datetime_range (t : Z) : bool := (MIN_EPOCH <=? t)%Z && (t <=? MAX_EPOCH)%Z.

Definition overflow_error : exn := mkExn "OverflowError" "date value out of range" None.

(** [self._maybe_fetch(name, fetcher, timings, debug_info)] in world [w]. *)
Definition fetch_in (w : World) (name : string) (d : diag) : pyval * diag :=
  maybe_fetch name (fetch w name) (elapsed w name) d.

(** [_base_feature_pack()] *)
Definition base_feature_pack (w : World) : list (string * pyval) :=
  [("units", unit_pack (units (settings w)))].

(** [feature_pack[key] = value] guarded by [if value:]. *)
Definition set_if (fp : list (string * pyval)) (key : string) (v : pyval)
  : list (string * pyval) :=
  if truthy v then dict_set fp key v else fp.

(** [_parse_horizon(horizon)] *)
Definition parse_horizon (horizon : string) : Z :=
  let h := Str.lower horizon in
  if String.eqb h "6h" then 6%Z
  else if String.eqb h "12h" then 12
  else if String.eqb h "24h" then 24
  else if String.eqb h "3d" then 72
  else 24.

(** [_build_window(place_info, when_text, horizon)] *)
Definition build_window (w : World) (place_info : pyval) (when_text : option string)
  (horizon : string) : res pyval :=
  let horizon_hours := parse_horizon horizon in
  tz_name <- py_get (py_or place_info (PDict [])) "tz" ;;
  start <- match when_text with
           | Some t =>
               if String.eqb t "" then ret (now_utc w)
               else match parse_when w t with
                    | Some p =>
                        (* [parsed.astimezone(UTC)] *)
                        if in_datetime_range p then ret p else raise overflow_error
                    | None => ret (now_utc w)
                    end
           | None => ret (now_utc w)
           end ;;
  let end_ := (start + horizon_hours * 3600)%Z in
  (* [start + timedelta(hours=horizon_hours)] *)
  if negb (in_datetime_range end_) then raise overflow_error else
  let window := [("start_iso", PStr (isoformat w start));
                 ("end_iso", PStr (isoformat w end_));
                 ("horizon", PStr (Str.string_of_Z horizon_hours ++ "h"))] in
  let window :=
    if truthy tz_name then
      match tz_name with
      | PStr tz =>
          match zone w tz with
          | Some local =>
              match local start, local end_ with
              | Some start_local, Some end_local =>
                  (window ++ [("start_local", PStr start_local);
                              ("end_local", PStr end_local);
                              ("timezone", PStr tz)])%list
              | _, _ => window
              end
          | None => window
          end
      | _ => window
      end
    else window in
  ret (PDict window).

(** The three quick fetches of [handle_forecast] and [handle_story]. *)
Definition quick_fetches (w : World) (fp : list (string * pyval)) (d : diag)
  : list (string * pyval) * diag :=
  let '(obs, d) := fetch_in w "quick_obs" d in
  let fp := set_if fp "obs_quick" obs in
  let '(profile, d) := fetch_in w "quick_profile" d in
  let fp := set_if fp "profile_quick" profile in
  let '(alerts, d) := fetch_in w "quick_alerts" d in
  (set_if fp "alerts_quick" alerts, d).

Definition initial_diag : diag := mkDiag [] [].

(** The Feature Pack [handle_question] hands to the forecaster. *)
Definition question_pack (w : World) : res (list (string * pyval) * diag) :=
  ret (base_feature_pack w, initial_diag).

(** The Feature Pack [handle_forecast] hands to the forecaster (which does
    not change it; the same dict is persisted and returned). *)
Definition forecast_pack (w : World) (when_text : option string) (horizon : string)
  (focus : option string) (verbose : bool) : res (list (string * pyval) * diag) :=
  let fp := base_feature_pack w in
  let '(place_info, d) := fetch_in w "point_context" initial_diag in
  let fp := set_if fp "place" place_info in
  window <- build_window w place_info when_text horizon ;;
  let fp := set_if fp "window" window in
  quick <- (if truthy place_info then
              lat <- py_get place_info "lat" ;;
              lon <- py_get place_info "lon" ;;
              ret (if is_number lat && is_number lon && trust_tools w
                   then quick_fetches w fp d else (fp, d))
            else ret (fp, d)) ;;
  let '(fp, d) := quick in
  let user_context := [("use_case", PStr "forecast")] in
  let user_context :=
    match focus with
    | Some f => if String.eqb f "" then user_context
                else dict_set user_context "constraints" (PList [PStr ("focus:" ++ f)])
    | None => user_context
    end in
  let user_context :=
    if verbose then
      let prev := match py_or (dict_get user_context "constraints") (PList []) with
                  | PList xs => xs | _ => [] end in
      dict_set user_context "constraints" (PList (prev ++ [PStr "verbose"])%list)
    else user_context in
  ret (set_if fp "user_context" (PDict user_context), d).

(** The Feature Pack [handle_risk] hands to the forecaster; [hazards] is
    the list the caller passes, or [None]. *)
Definition risk_pack (w : World) (hazards : option (list string))
  : res (list (string * pyval) * diag) :=
  let fp := base_feature_pack w in
  let '(place_info, d) := fetch_in w "point_context" initial_diag in
  let fp := set_if fp "place" place_info in
  quick <- (if truthy place_info && trust_tools w then
              lat <- py_get place_info "lat" ;;
              lon <- py_get place_info "lon" ;;
              ret (if is_number lat && is_number lon then
                     let '(alerts, d) := fetch_in w "quick_alerts" d in
                     (set_if fp "alerts_quick" alerts, d)
                   else (fp, d))
            else ret (fp, d)) ;;
  let '(fp, d) := quick in
  match hazards with
  | Some ((_ :: _) as hs) =>
      (* feature_pack.setdefault("user_context", {})["constraints"] = [...] *)
      let uc := match find (fun kv => String.eqb (fst kv) "user_context") fp with
                | Some (_, v) => v | None => PDict [] end in
      match uc with
      | PDict kvs =>
          ret (dict_set fp "user_context"
                 (PDict (dict_set kvs "constraints"
                           (PList [PStr ("hazards:" ++ Str.join "," hs)]))), d)
      | _ => raise (mkExn "TypeError" "object does not support item assignment" None)
      end
  | _ => ret (fp, d)
  end.

(** The Feature Pack of [handle_alerts]. *)
Definition alerts_pack (w : World) : res (list (string * pyval) * diag) :=
  let fp := base_feature_pack w in
  let '(place_info, d) := fetch_in w "point_context" initial_diag in
  let fp := set_if fp "place" place_info in
  fetched <- (if truthy place_info then
                lat <- py_get place_info "lat" ;;
                lon <- py_get place_info "lon" ;;
                ret (if is_number lat && is_number lon then
                       let '(a, d) := fetch_in w "quick_alerts" d in (py_or a (PList []), d)
                     else (PList [], d))
              else ret (PList [], d)) ;;
  let '(alerts, d) := fetched in
  ret (set_if fp "alerts_quick" alerts, d).

(** The Feature Pack [handle_story] hands to the storyteller. *)
Definition story_pack (w : World) (when_text : option string) (horizon : string)
  : res (list (string * pyval) * diag) :=
  let fp := base_feature_pack w in
  let '(place_info, d) := fetch_in w "point_context" initial_diag in
  let fp := set_if fp "place" place_info in
  window <- build_window w place_info when_text horizon ;;
  let fp := set_if fp "window" window in
  if truthy place_info && trust_tools w then
    lat <- py_get place_info "lat" ;;
    lon <- py_get place_info "lon" ;;
    ret (if is_number lat && is_number lon then quick_fetches w fp d else (fp, d))
  else ret (fp, d).

(** The five handlers that build a Feature Pack, with their arguments. *)
Inductive request : Type :=
| Question
| Forecast (when_text : option string) (horizon : string) (focus : option string)
           (verbose : bool)
| Risk (hazards : option (list string))
| Alerts
| Story (when_text : option string) (horizon : string).

Definition handler_pack (w : World) (r : request) : res (list (string * pyval) * diag) :=
  match r with
  | Question => question_pack w
  | Forecast wt h f v => forecast_pack w wt h f v
  | Risk hz => risk_pack w hz
  | Alerts => alerts_pack w
  | Story wt h => story_pack w wt h
  end.

(** A value is non-null and non-empty. *)
Definition meaningful (v : pyval) : Prop :=
  match v with
  | PNone => False
  | PStr s => s <> ""
  | PList xs => xs <> []
  | PDict kvs => kvs <> []
  | _ => True
  end.

(** The handlers that resolve a place and build a forecast window. *)
Definition builds_window (r : request) : bool :=
  match r with Forecast _ _ _ _ | Story _ _ => true | _ => false end.

(** What point-context resolution returned in world [w]. *)
Definition place_info_of (w : World) : pyval :=
  fst (fetch_in w "point_context" initial_diag).

(** Every top-level entry of a Feature Pack holds a meaningful value. *)
Definition all_meaningful (fp : list (string * pyval)) : Prop :=
  Forall (fun kv => meaningful (snd kv)) fp.

(** [Orchestrator._compose_risk_query(place, hazards)]; [hazards] is a
    list or [None]. *)
Definition compose_risk_query (place : string) (hazards : option (list string)) : string :=
  match hazards with
  | Some ((_ :: _) as hs) =>
      "Risk assessment for " ++ place ++ ": hazards=" ++ Str.join "," (sorted_set hs)
  | _ => "Risk assessment for " ++ place
  end.

(** A list comprehension whose element expression may raise. *)
Fixpoint map_res {A B} (f : A -> res B) (l : list A) : res (list B) :=
  match l with
  | [] => ret []
  | x :: rest => y <- f x ;; ys <- map_res f rest ;; ret (y :: ys)
  end.

(** [Orchestrator._alerts_response(place, alerts)], with [records =
    list(alerts)] given as a list; [dumps] is [json.dumps] and [py_str]
    the builtin [str] the f-strings apply to non-string values. *)
Definition alerts_response (dumps : pyval -> string) (py_str : pyval -> string)
  (place : string) (records : list pyval) : res ForecasterResponse :=
  let fmt (v : pyval) := match v with PStr s => s | _ => py_str v end in
  secs <- match records with
          | [] =>
              ret (PDict [
                ("summary", PList [PStr ("No active alerts found for " ++ place ++
                                         " at this time.")]);
                ("timeline", PList [PStr "No urgent alerts."]);
                ("risk_cards", PList []);
                ("confidence", PStr "Based on NOAA live feed availability.");
                ("actions", PList [PStr "Monitor official channels for updates."]);
                ("assumptions", PList [PStr "No AI triage performed."])])
          | _ =>
              timeline <- map_res (fun record =>
                  ev <- OpenRouter.py_get_default record "event" (PStr "Alert") ;;
                  ex <- OpenRouter.py_get_default record "expires_iso" (PStr "unknown") ;;
                  ret (PStr (fmt ev ++ " expires " ++ fmt ex))) records ;;
              risk_cards <- map_res (fun record =>
                  ev <- OpenRouter.py_get_default record "event" (PStr "Alert") ;;
                  lv <- OpenRouter.py_get_default record "severity" (PStr "Unknown") ;;
                  ret (PDict [("hazard", ev); ("level", lv);
                              ("drivers", PList [PStr "Official alert headline"]);
                              ("confidence", PStr "Official source")])) records ;;
              ret (PDict [
                ("summary", PList [PStr (Str.string_of_Z (Z.of_nat (length records)) ++
                                         " active alerts near " ++ place ++ ".")]);
                ("timeline", PList timeline);
                ("risk_cards", PList risk_cards);
                ("confidence", PStr "Reporting official alerts without AI triage.");
                ("actions", PList [PStr "Review alert details and follow guidance."]);
                ("assumptions", PList [PStr "Alerts feed is up to date."])])
          end ;;
  let has_records := match records with [] => false | _ => true end in
  ret (mkForecasterResponse
         secs
         (PDict [("value", PInt (if has_records then 60 else 40));
                 ("rationale", PStr "Derived from alert feed.")])
         (PList (if has_records then [PStr "alerts_quick"] else []))
         (PStr (if has_records then "Bottom line: monitor these alerts."
                else "Bottom line: no alerts currently active."))
         (dumps secs) "alerts-manual" ("alerts | " ++ place)
         (PDict [("records", PInt (Z.of_nat (length records)))])).

End Orchestrator.

(* ------------------------------------------------------------------ *)
(** ** [wx/orchestrator.py]: worldview aggregation *)

Module Worldview.

(** [wx.fetchers.Observation] *)
Record Observation := mkObservation {
  lat : Q;
  lon : Q;
  temp : option Q;
  feels_like : option Q;
  wind : option Q;
  gust : option Q;
  precip_prob : option Q;
  cloud_cover : option Q
}.

(** [wx.fetchers.Alert] *)
Record Alert := mkAlert {
  event : string;
  severity : string;
  areas : list string;
  expires_iso : option string
}.

(** [RegionStats] *)
Record RegionStats := mkRegionStats {
  tmin : option Q;
  tmax : option Q;
  pop_max : option Q;
  wind_max : option Q;
  gust_max : option Q
}.

(** [[f(obs) for obs in observations if f(obs) is not None]] *)
Definition present (f : Observation -> option Q) (observations : list Observation)
  : list Q :=
  flat_map (fun o => match f o with Some v => [v] | None => [] end) observations.

(** [x < y] on floats. *)
Definition Qltb (x y : Q) : bool := negb (Qle_bool y x).

(** Python's [min] and [max] keep the first extremal item: the current
    item is replaced only by a strictly smaller (larger) one. *)
Fixpoint min_from (cur : Q) (xs : list Q) : Q :=
  match xs with
  | [] => cur
  | x :: rest => min_from (if Qltb x cur then x else cur) rest
  end.

Fixpoint max_from (cur : Q) (xs : list Q) : Q :=
  match xs with
  | [] => cur
  | x :: rest => max_from (if Qltb cur x then x else cur) rest
  end.

(** [min(xs) if xs else None] and [max(xs) if xs else None] *)
Definition min_or_none (xs : list Q) : option Q :=
  match xs with [] => None | x :: rest => Some (min_from x rest) end.

Definition max_or_none (xs : list Q) : option Q :=
  match xs with [] => None | x :: rest => Some (max_from x rest) end.

Definition empty_stats : RegionStats := mkRegionStats None None None None None.

(** [Orchestrator._compute_region_stats] *)
Definition compute_region_stats (observations : list Observation) : RegionStats :=
  match observations with
  | [] => empty_stats
  | _ =>
      let temps := present temp observations in
      let precip_probs := present precip_prob observations in
      let winds := present wind observations in
      let gusts := present gust observations in
      mkRegionStats (min_or_none temps) (max_or_none temps) (max_or_none precip_probs)
                    (max_or_none winds) (max_or_none gusts)
  end.

(** [int(x)] of a float: truncation toward zero. *)
Definition py_int (x : Q) : Z := if Qle_bool 0 x then Qfloor x else Qceiling x.

(** The two non-ASCII literals of the temperature phrase: the separator
    U+00E2 U+20AC U+201C and the suffix U+00C2 U+00B0. An [ascii] holds
    code points up to 255 only, so both are written as their UTF-8 bytes,
    the bytes of the source file. *)
Definition temps_sep : string :=
  String (ascii_of_nat 195) (String (ascii_of_nat 162)
  (String (ascii_of_nat 226) (String (ascii_of_nat 130) (String (ascii_of_nat 172)
  (String (ascii_of_nat 226) (String (ascii_of_nat 128) (String (ascii_of_nat 156) ""))))))).

Definition degree_sign : string :=
  String (ascii_of_nat 195) (String (ascii_of_nat 130)
  (String (ascii_of_nat 194) (String (ascii_of_nat 176) ""))).

(** The list [parts] built by [_generate_region_summary] from the region's
    statistics and alerts; [if stats.pop_max and stats.pop_max > 30] tests
    the float's truthiness before comparing it. *)
Definition region_summary_parts (stats : RegionStats) (alerts : list Alert) : list string :=
  app (match tmin stats, tmax stats with
       | Some lo, Some hi =>
           ["Temps " ++ Str.string_of_Z (py_int lo) ++ temps_sep
            ++ Str.string_of_Z (py_int hi) ++ degree_sign]
       | _, _ => []
       end)
  (app (match pop_max stats with
        | Some p =>
            if negb (Qeq_bool p 0) && Qltb 30 p
            then ["precip chance up to " ++ Str.string_of_Z (py_int p) ++ "%"] else []
        | None => []
        end)
  (app (match wind_max stats with
        | Some v =>
            if negb (Qeq_bool v 0) && Qltb 10 v
            then ["winds to " ++ Str.string_of_Z (py_int v) ++ " m/s"] else []
        | None => []
        end)
       (match alerts with
        | [] => []
        | _ => [Str.string_of_Z (Z.of_nat (length alerts)) ++ " active alerts"]
        end))).

(** [Orchestrator._generate_region_summary(region, observations, alerts)] *)
Definition generate_region_summary (region : string) (observations : list Observation)
  (alerts : list Alert) : string :=
  match observations with
  | [] => "No data available for " ++ region ++ "."
  | _ =>
      let parts := region_summary_parts (compute_region_stats observations) alerts in
      match parts with
      | [] => "Conditions variable"
      | _ => Str.join "; " parts
      end
  end.

(** One entry of the alert summary: [{"event", "count", "areas"}]. *)
Record AlertSummary := mkAlertSummary {
  s_event : string;
  s_count : nat;
  s_areas : list string
}.

(** [s.update(xs)] on a set of strings kept in insertion order. *)
Definition set_update (s : list string) (xs : list string) : list string :=
  fold_left (fun acc x => if in_dec string_dec x acc then acc else (acc ++ [x])%list) xs s.

Fixpoint lookup {A} (kvs : list (string * A)) (k : string) : option A :=
  match kvs with
  | [] => None
  | (k', v) :: rest => if String.eqb k k' then Some v else lookup rest k
  end.

(** One iteration of the grouping loop of [_summarize_alerts]: the group
    of an event holds its count and its set of areas. *)
Definition group_step (grouped : list (string * (nat * list string))) (alert : Alert)
  : list (string * (nat * list string)) :=
  let '(count, ars) := match lookup grouped (event alert) with
                       | Some g => g | None => (0%nat, []) end in
  dict_set grouped (event alert) (S count, set_update ars (firstn 2 (areas alert))).

Definition group_alerts (alerts : list Alert) : list (string * (nat * list string)) :=
  fold_left group_step alerts [].

Definition to_entry (g : string * (nat * list string)) : AlertSummary :=
  let '(ev, (count, ars)) := g in
  mkAlertSummary ev count (firstn 5 (Str.sort_strings ars)).

(** [sorted(result, key=lambda x: x["count"], reverse=True)]: a stable
    sort by descending count. *)
Fixpoint insert_desc (x : AlertSummary) (l : list AlertSummary) : list AlertSummary :=
  match l with
  | [] => [x]
  | y :: rest => if (s_count y <? s_count x)%nat then x :: l else y :: insert_desc x rest
  end.

Definition sort_by_count_desc (l : list AlertSummary) : list AlertSummary :=
  fold_left (fun acc x => insert_desc x acc) l [].

(** [Orchestrator._summarize_alerts] *)
Definition summarize_alerts (alerts : list Alert) : list AlertSummary :=
  match alerts with
  | [] => []
  | _ => firstn 5 (sort_by_count_desc (map to_entry (group_alerts alerts)))
  end.

(** [r] is the least of [vals], or [None] when [vals] is empty. *)
Definition min_over (r : option Q) (vals : list Q) : Prop :=
  match vals with
  | [] => r = None
  | _ => exists m, r = Some m /\ In m vals /\ Forall (fun v => m <= v) vals
  end.

Definition max_over (r : option Q) (vals : list Q) : Prop :=
  match vals with
  | [] => r = None
  | _ => exists m, r = Some m /\ In m vals /\ Forall (fun v => v <= m) vals
  end.

(** The number of alerts whose event name is exactly [ev]. *)
Definition count_event (ev : string) (alerts : list Alert) : nat :=
  length (filter (fun a => String.eqb ev (event a)) alerts).

(** The group of event [ev] seen through one iteration of the grouping
    loop, looked up in the dictionary before and after the iteration. *)
Definition gstep (ev : string) (o : option (nat * list string)) (alert : Alert)
  : option (nat * list string) :=
  if String.eqb ev (event alert) then
    let '(count, ars) := match o with Some g => g | None => (0%nat, []) end in
    Some (S count, set_update ars (firstn 2 (areas alert)))
  else o.

Definition group_count (o : option (nat * list string)) : nat :=
  match o with Some (c, _) => c | None => 0%nat end.

Definition group_areas (o : option (nat * list string)) : list string :=
  match o with Some (_, ars) => ars | None => [] end.

End Worldview.

(* ------------------------------------------------------------------ *)
(** ** Sample configurations and worlds *)

Module Samples.

Import Fetch OpenRouter Forecaster Orchestrator.

(** An OpenRouter key is set, every POST answers HTTP 429, and the Gemini
    SDK is not installed. *)
Definition settings_429 : Settings :=
  mkSettings false "imperial" "" "" (Some "key") [] "" 0 1000 None "".

Definition env_429 : Env :=
  mkEnv (fun _ => None) (fun _ => "") (fun _ => "")
        (fun _ => HttpResponse 429 None) GeminiNotInstalled
        (fun _ => PDict []).

Definition settings_offline_unconfigured : Settings :=
  mkSettings true "imperial" "" "" None [] "" 0 1000 None "".

(** A world where the point context resolves to Boulder, CO, and every
    quick fetch returns data. *)
Definition boulder : pyval :=
  PDict [("lat", PFloat (40 # 1)); ("lon", PFloat ((-105) # 1));
         ("tz", PStr "America/Denver")].

Definition world_resolved : World :=
  mkWorld settings_429 true
    (fun name => if String.eqb name "point_context" then Returns boulder
                 else if String.eqb name "quick_alerts" then Returns (PList [])
                 else Returns (PDict [("temp", PFloat (12 # 1))]))
    (fun _ => 0) 1700000000%Z (fun _ => "2023-11-14T22:13:20+00:00")
    (fun _ => None) (fun _ => Some (fun _ => Some "2023-11-14T15:13:20-07:00")).

(** A world where point-context resolution returns nothing. *)
Definition world_unresolved : World :=
  mkWorld settings_429 true (fun _ => Returns PNone)
    (fun _ => 0) 1700000000%Z (fun _ => "2023-11-14T22:13:20+00:00")
    (fun _ => None) (fun _ => None).

(** A chat-completions body whose first message has the content [" hi "]. *)
Definition sample_ok_body : pyval :=
  PDict [("choices", PList [PDict [("message", PDict [("content", PStr " hi ")])]]);
         ("usage", PNone)].

(** OpenRouter answers with [sample_ok_body], whose text [json.loads]
    reads as an object whose [sections] is a string. *)
Definition env_sections_str : Env :=
  mkEnv (fun _ => Some (PDict [("sections", PStr "text")])) (fun _ => "") (fun _ => "")
        (fun _ => HttpResponse 200 (Some sample_ok_body)) GeminiNotInstalled
        (fun _ => PDict []).

(** OpenRouter answers with [sample_ok_body]; its text is not JSON. *)
Definition env_unparseable : Env :=
  mkEnv (fun _ => None) (fun _ => "") (fun _ => "")
        (fun _ => HttpResponse 200 (Some sample_ok_body)) GeminiNotInstalled
        (fun _ => PDict []).

(** OpenRouter answers with [sample_ok_body]; its text is a JSON list. *)
Definition env_json_list : Env :=
  mkEnv (fun _ => Some (PList [])) (fun _ => "") (fun _ => "")
        (fun _ => HttpResponse 200 (Some sample_ok_body)) GeminiNotInstalled
        (fun _ => PDict []).

(** Place information that is truthy but not a dict. *)
Definition sample_list_place : pyval := PList [PStr "Boulder"].

(** [world_resolved] with [trust_tools] off. *)
Definition world_untrusted : World :=
  mkWorld settings_429 false (fetch world_resolved) (elapsed world_resolved)
    (now_utc world_resolved) (isoformat world_resolved) (parse_when world_resolved)
    (zone world_resolved).

(** Two observations, one reporting a temperature of 10.5, a wind of 12
    and a precipitation probability of 45, the other only a temperature
    of -3; and a flood warning. *)
Definition sample_obs : list Worldview.Observation :=
  [Worldview.mkObservation 40 (-105) (Some (21 # 2)) None (Some 12) None (Some 45) None;
   Worldview.mkObservation 39 (-104) (Some (-3)) None None None None None].

Definition sample_flood : Worldview.Alert :=
  Worldview.mkAlert "Flood Warning" "Severe" ["Denver"] None.

End Samples.

(* ================================================================== *)
(** * Properties *)

(* ------------------------------------------------------------------ *)
(** ** The fetch coordinator *)

Module FetchFacts.

Import Fetch.

Lemma maybe_fetch_task : forall t d,
  maybe_fetch (t_name t) (t_func t) (t_elapsed t) d =
  (expected_result t,
   mkDiag (dict_set (timings d) (t_name t) (t_elapsed t))
          (fetchers d ++ [expected_entry t])).
Proof. intros [n [v|e] el] d; reflexivity. Qed.

Lemma run_tasks_spec : forall ts d,
  fst (run_tasks ts d) = map expected_result ts /\
  fetchers (snd (run_tasks ts d)) = (fetchers d ++ map expected_entry ts)%list.
Proof.
  induction ts as [|t ts IH]; intros d; simpl.
  - rewrite app_nil_r; auto.
  - rewrite maybe_fetch_task.
    destruct (run_tasks ts _) as [rs d2] eqn:E.
    match type of E with run_tasks ts ?d1 = _ => specialize (IH d1) end.
    rewrite E in IH; simpl in *; destruct IH as [H1 H2].
    split; [congruence|].
    rewrite H2, <- app_assoc; reflexivity.
Qed.

(** C1 (amended): every task run through the coordinator gets exactly one
    diagnostic entry, in order, and its result; a task whose thunk raises
    yields [None] and an entry with [succeeded = false] whose detail is
    [str(exc)], the exception text (empty when the exception carries no
    message); a task returning a non-empty value yields that value and an
    entry with [succeeded = true].  The coordinator is a total function:
    it never raises, and every task of the batch runs. *)
Theorem coordinator_isolates_task_failures : forall ts d,
  let '(rs, d') := run_tasks ts d in
  exists entries,
    fetchers d' = (fetchers d ++ entries)%list /\
    length entries = length ts /\ length rs = length ts /\
    forall i t, nth_error ts i = Some t ->
      (forall e, t_func t = Raises e ->
         nth_error rs i = Some PNone /\
         nth_error entries i =
           Some (mkFetchResult (t_name t) (t_elapsed t) false (Some (exn_msg e)))) /\
      (forall v, t_func t = Returns v -> in_none_empty v = false ->
         nth_error rs i = Some v /\
         nth_error entries i = Some (mkFetchResult (t_name t) (t_elapsed t) true None)).
Proof.
  intros ts d.
  destruct (run_tasks ts d) as [rs d'] eqn:E.
  destruct (run_tasks_spec ts d) as [H1 H2]; rewrite E in H1, H2; simpl in H1, H2.
  exists (map expected_entry ts).
  split; [exact H2|].
  split; [apply length_map|].
  split; [subst rs; apply length_map|].
  intros i t Hi; subst rs.
  rewrite !nth_error_map, Hi; simpl.
  unfold expected_result, expected_entry.
  split.
  - intros e He; rewrite He; auto.
  - intros v Hv Hne; rewrite Hv, Hne; auto.
Qed.

(** C1: a thunk raising an exception without a message (Python's
    [ValueError()]) is recorded with an empty detail. *)
Lemma coordinator_empty_detail_counterexample :
  fetchers (snd (run_tasks
    [mkTask "point_context" (Raises (mkExn "ValueError" "" None)) 0]
    (mkDiag [] []))) =
  [mkFetchResult "point_context" 0 false (Some "")].
Proof. reflexivity. Qed.

End FetchFacts.

(* ------------------------------------------------------------------ *)
(** ** The forecaster *)

Module ForecasterFacts.

Import OpenRouter Forecaster Samples.

(** C3: with the offline setting, [generate] makes no provider call and
    returns the deterministic fallback labelled ["offline"], whose
    confidence value is 25, whatever the Feature Pack. *)
Theorem generate_offline :
  forall st env query fp intent verbose explain,
  offline st = true ->
  let '(ev, resp) := generate st env query fp intent verbose explain in
  ev = [] /\ provider resp = "offline" /\
  py_get (confidence resp) "value" = ret (PInt 25) /\
  resp = fallback_response env fp explain "offline"
           (compose_prompt_summary query intent verbose explain) None PNone.
Proof.
  intros st env query fp intent verbose explain Hoff.
  unfold generate; rewrite Hoff; simpl; auto.
Qed.

Lemma generate_offline_witness :
  offline (mkSettings true "imperial" "" "" None [] "" 0 0 None "") = true /\
  let '(ev, resp) :=
    generate (mkSettings true "imperial" "" "" None [] "" 0 0 None "")
             (mkEnv (fun _ => None) (fun _ => "") (fun _ => "")
                    (fun _ => HttpTimeout) GeminiNotInstalled (fun _ => PDict []))
             "q" [("units", PDict [("temp", PStr "F")])] "question" false false in
  ev = [] /\ provider resp = "offline" /\
  py_get (confidence resp) "value" = ret (PInt 25) /\
  resp = fallback_response
           (mkEnv (fun _ => None) (fun _ => "") (fun _ => "")
                  (fun _ => HttpTimeout) GeminiNotInstalled (fun _ => PDict []))
           [("units", PDict [("temp", PStr "F")])] false "offline"
           (compose_prompt_summary "q" "question" false false) None PNone.
Proof.
  split; [reflexivity|].
  apply (generate_offline (mkSettings true "imperial" "" "" None [] "" 0 0 None "")).
  reflexivity.
Defined.

Lemma used_fields_or_empty : forall u,
  (if is_list (py_or u (PList [])) then py_or u (PList []) else PList []) =
  (if is_list u then u else PList []).
Proof.
  intros u; unfold py_or; destruct (truthy u) eqn:T; [reflexivity|].
  destruct u as [| | | | |xs|]; simpl; try reflexivity.
  destruct xs; [reflexivity|discriminate].
Qed.

(** C10: when the cleaned provider text parses as a JSON object,
    [_parse_response] does not raise and fills in defaults: a missing or
    falsy ["sections"] becomes [{}], a missing or falsy ["confidence"]
    becomes [{"value": 30, ...}], a missing or falsy ["bottom_line"]
    becomes ["No bottom line provided."], and a ["used_feature_fields"]
    that is not a list becomes [[]]. *)
Theorem parse_response_defaults :
  forall env raw ps prov m kvs,
  json_loads env (clean_text raw) = Some (PDict kvs) ->
  exists resp,
    parse_response env raw ps prov m = inr resp /\
    sections resp = py_or (dict_get kvs "sections") (PDict []) /\
    confidence resp =
      py_or (dict_get kvs "confidence")
            (PDict [("value", PInt 30); ("rationale", PStr "Model confidence not supplied.")]) /\
    bottom_line resp = py_or (dict_get kvs "bottom_line") (PStr "No bottom line provided.") /\
    (is_list (dict_get kvs "used_feature_fields") = false ->
       used_feature_fields resp = PList []) /\
    (is_list (dict_get kvs "used_feature_fields") = true ->
       used_feature_fields resp = dict_get kvs "used_feature_fields").
Proof.
  intros env raw ps prov m kvs Hjson.
  unfold parse_response; rewrite Hjson; simpl.
  eexists; split; [reflexivity|].
  split; [reflexivity|]; split; [reflexivity|]; split; [reflexivity|].
  rewrite used_fields_or_empty.
  split; intros Hl; rewrite Hl; reflexivity.
Qed.

Lemma parse_response_defaults_witness :
  json_loads (mkEnv (fun _ => Some (PDict [("bottom_line", PStr "")])) (fun _ => "")
                    (fun _ => "") (fun _ => HttpTimeout) GeminiNotInstalled (fun _ => PDict []))
             (clean_text "[]") = Some (PDict [("bottom_line", PStr "")]) /\
  exists resp,
    parse_response (mkEnv (fun _ => Some (PDict [("bottom_line", PStr "")])) (fun _ => "")
                          (fun _ => "") (fun _ => HttpTimeout) GeminiNotInstalled (fun _ => PDict []))
                   "[]" "q" "gemini" PNone = inr resp /\
    sections resp = py_or (dict_get [("bottom_line", PStr "")] "sections") (PDict []) /\
    confidence resp =
      py_or (dict_get [("bottom_line", PStr "")] "confidence")
            (PDict [("value", PInt 30); ("rationale", PStr "Model confidence not supplied.")]) /\
    bottom_line resp = py_or (dict_get [("bottom_line", PStr "")] "bottom_line")
                             (PStr "No bottom line provided.") /\
    (is_list (dict_get [("bottom_line", PStr "")] "used_feature_fields") = false ->
       used_feature_fields resp = PList []) /\
    (is_list (dict_get [("bottom_line", PStr "")] "used_feature_fields") = true ->
       used_feature_fields resp = dict_get [("bottom_line", PStr "")] "used_feature_fields").
Proof.
  split; [reflexivity|].
  apply parse_response_defaults; reflexivity.
Defined.

Lemma startswith_app : forall p s, Str.startswith (p ++ s) p = true.
Proof.
  unfold Str.startswith.
  induction p as [|c p IH]; intros s.
  - destruct s; reflexivity.
  - simpl; destruct (ascii_dec c c) as [_|n]; [apply IH | contradiction n; reflexivity].
Qed.

Lemma invoke_gemini_raises : forall st env errors,
  (opt_truthy (gemini_api_key st) = false \/
   match snd (call_gemini st env) return Prop with
   | inl _ => True
   | inr None => True
   | inr (Some t) => t = ""
   end) ->
  exists e, snd (invoke_gemini st env errors) = inl e.
Proof.
  intros st env errors Hg.
  unfold invoke_gemini.
  destruct (opt_truthy (gemini_api_key st)) eqn:K.
  - destruct Hg as [Hk|Hg]; [discriminate|].
    destruct (call_gemini st env) as [ev r]; simpl in Hg.
    destruct r as [e|[t|]]; simpl.
    + destruct (exn_class e =? "RuntimeError"); eexists; reflexivity.
    + subst t; eexists; reflexivity.
    + eexists; reflexivity.
  - eexists; reflexivity.
Qed.

Lemma invoke_provider_raises : forall st env,
  providers_exhausted st env -> exists e, snd (invoke_provider st env) = inl e.
Proof.
  intros st env [Hor Hg].
  unfold invoke_provider.
  destruct (build_openrouter_config st) as [cfg|] eqn:B.
  - destruct Hor as [e He].
    destruct (chat_completion cfg (openrouter_post env)) as [ev r]; simpl in He; subst r.
    destruct (exn_class e =? "OpenRouterError").
    + destruct (invoke_gemini_raises st env ["openrouter:" ++ exn_msg e] Hg) as [e' He'].
      destruct (invoke_gemini st env _) as [ev2 r2]; simpl in *; subst r2.
      eexists; reflexivity.
    + eexists; reflexivity.
  - apply invoke_gemini_raises; exact Hg.
Qed.

(** C2 (amended): with the offline setting off, when every AI provider is
    unconfigured or has failed (for instance OpenRouter answering HTTP 429
    on all three attempts and no Gemini key), the provider chain
    [_invoke_provider] raises an exception [e] and [generate] does not
    raise: it returns the deterministic fallback built with provider
    ["fallback:" ++ class of e], [raw_text] [str(e)] and [meta]
    [{"error": str(e)}]; so its provider label starts with ["fallback:"]
    and its bottom line is the fixed sentence. *)
Theorem generate_providers_exhausted_fallback :
  forall st env query fp intent verbose explain,
  offline st = false ->
  providers_exhausted st env ->
  let resp := snd (generate st env query fp intent verbose explain) in
  exists e,
    snd (invoke_provider st env) = inl e /\
    resp = fallback_response env fp explain ("fallback:" ++ exn_class e)
             (compose_prompt_summary query intent verbose explain)
             (Some (exn_msg e)) (PDict [("error", PStr (exn_msg e))]) /\
    provider resp = "fallback:" ++ exn_class e /\
    Str.startswith (provider resp) "fallback:" = true /\
    bottom_line resp = PStr FALLBACK_BOTTOM_LINE.
Proof.
  intros st env query fp intent verbose explain Hoff Hex.
  destruct (invoke_provider_raises st env Hex) as [e He].
  exists e; split; [exact He|].
  unfold generate; rewrite Hoff.
  destruct (invoke_provider st env) as [ev r]; simpl in He; subst r; simpl.
  split; [reflexivity|]; split; [reflexivity|].
  split; [exact (startswith_app "fallback:" (exn_class e)) | reflexivity].
Qed.

Lemma generate_providers_exhausted_fallback_witness :
  offline settings_429 = false /\ providers_exhausted settings_429 env_429 /\
  let resp := snd (generate settings_429 env_429 "Forecast request for Paris"
                            [("units", unit_pack_imperial)] "forecast" false false) in
  exists e,
    snd (invoke_provider settings_429 env_429) = inl e /\
    resp = fallback_response env_429 [("units", unit_pack_imperial)] false
             ("fallback:" ++ exn_class e)
             (compose_prompt_summary "Forecast request for Paris" "forecast" false false)
             (Some (exn_msg e)) (PDict [("error", PStr (exn_msg e))]) /\
    provider resp = "fallback:" ++ exn_class e /\
    Str.startswith (provider resp) "fallback:" = true /\
    bottom_line resp = PStr FALLBACK_BOTTOM_LINE.
Proof.
  assert (Hex : providers_exhausted settings_429 env_429).
  { split; [eexists; reflexivity | left; reflexivity]. }
  split; [reflexivity|]; split; [exact Hex|].
  apply generate_providers_exhausted_fallback; [reflexivity | exact Hex].
Defined.

(** C2: with the offline setting on and no provider configured, the
    fallback is labelled ["offline"], not ["fallback:..."]. *)
Lemma generate_offline_unconfigured_counterexample :
  providers_exhausted settings_offline_unconfigured env_429 /\
  provider (snd (generate settings_offline_unconfigured env_429 "q" [] "forecast" false false))
    = "offline" /\
  Str.startswith
    (provider (snd (generate settings_offline_unconfigured env_429 "q" [] "forecast" false false)))
    "fallback:" = false.
Proof.
  split; [split; [exact I | left; reflexivity]|].
  split; reflexivity.
Qed.

(** The OpenRouter configuration the forecaster builds always keeps the
    client's defaults: three attempts and a first backoff of 0.75 s. *)
Lemma build_openrouter_config_defaults : forall st cfg,
  build_openrouter_config st = Some cfg ->
  retries cfg = 3%Z /\ backoff_factor cfg = 3 # 4.
Proof.
  intros st cfg H; unfold build_openrouter_config in H.
  destruct (openrouter_api_key st) as [key|]; [|discriminate].
  destruct (String.eqb key ""); [discriminate|].
  injection H as <-; split; reflexivity.
Qed.

End ForecasterFacts.

(* ------------------------------------------------------------------ *)
(** ** The OpenRouter retry loop *)

Module OpenRouterFacts.

Import OpenRouter.

Lemma completion_loop_S : forall cfg post n a b st,
  completion_loop cfg post (S n) a b st =
  if continue_after (retries cfg) a (post a) then
    let '(ev, r) := completion_loop cfg post n (a + 1) (b * 2) (next_status (post a) st) in
    (Post a :: Sleep b :: ev, r)
  else ([Post a], stop_result cfg a (post a)).
Proof.
  intros cfg post n a b st; simpl.
  unfold continue_after, stop_result, next_status.
  destruct (post a) as [status [data|]| |]; simpl;
    repeat match goal with |- context [if ?c then _ else _] => destruct c end;
    reflexivity.
Qed.







End OpenRouterFacts.

(* ------------------------------------------------------------------ *)
(** ** Region statistics *)

Module RegionStatsFacts.

Import Worldview.

Lemma Qltb_true : forall x y, Qltb x y = true -> x < y.
Proof.
  unfold Qltb; intros x y H.
  apply negb_true_iff in H.
  apply Qnot_le_lt; intros Hle; apply Qle_bool_iff in Hle; congruence.
Qed.

Lemma Qltb_false : forall x y, Qltb x y = false -> y <= x.
Proof.
  unfold Qltb; intros x y H.
  apply negb_false_iff in H; apply Qle_bool_iff; exact H.
Qed.

Lemma min_from_spec : forall xs cur,
  In (min_from cur xs) (cur :: xs) /\ Forall (fun v => min_from cur xs <= v) (cur :: xs).
Proof.
  induction xs as [|x xs IH]; intros cur; simpl.
  - split; [left; reflexivity | constructor; [apply Qle_refl | constructor]].
  - set (c' := if Qltb x cur then x else cur).
    assert (Hc : (c' = x \/ c' = cur) /\ c' <= cur /\ c' <= x).
    { unfold c'; destruct (Qltb x cur) eqn:L.
      - apply Qltb_true in L; split; [left; reflexivity|].
        split; [apply Qlt_le_weak; exact L | apply Qle_refl].
      - apply Qltb_false in L; split; [right; reflexivity|].
        split; [apply Qle_refl | exact L]. }
    destruct Hc as [Hin [Hcur Hx]].
    destruct (IH c') as [Hm Hall].
    inversion Hall as [|? ? Hmc Hrest]; subst.
    split.
    + destruct Hm as [Hm|Hm]; [|right; right; exact Hm].
      rewrite <- Hm; destruct Hin as [-> | ->]; [right; left | left]; reflexivity.
    + constructor; [eapply Qle_trans; eauto|].
      constructor; [eapply Qle_trans; eauto | exact Hrest].
Qed.

Lemma max_from_spec : forall xs cur,
  In (max_from cur xs) (cur :: xs) /\ Forall (fun v => v <= max_from cur xs) (cur :: xs).
Proof.
  induction xs as [|x xs IH]; intros cur; simpl.
  - split; [left; reflexivity | constructor; [apply Qle_refl | constructor]].
  - set (c' := if Qltb cur x then x else cur).
    assert (Hc : (c' = x \/ c' = cur) /\ cur <= c' /\ x <= c').
    { unfold c'; destruct (Qltb cur x) eqn:L.
      - apply Qltb_true in L; split; [left; reflexivity|].
        split; [apply Qlt_le_weak; exact L | apply Qle_refl].
      - apply Qltb_false in L; split; [right; reflexivity|].
        split; [apply Qle_refl | exact L]. }
    destruct Hc as [Hin [Hcur Hx]].
    destruct (IH c') as [Hm Hall].
    inversion Hall as [|? ? Hmc Hrest]; subst.
    split.
    + destruct Hm as [Hm|Hm]; [|right; right; exact Hm].
      rewrite <- Hm; destruct Hin as [-> | ->]; [right; left | left]; reflexivity.
    + constructor; [eapply Qle_trans; eauto|].
      constructor; [eapply Qle_trans; eauto | exact Hrest].
Qed.

Lemma min_or_none_spec : forall xs, min_over (min_or_none xs) xs.
Proof.
  intros [|x xs]; simpl; [reflexivity|].
  exists (min_from x xs); split; [reflexivity|]; apply min_from_spec.
Qed.

Lemma max_or_none_spec : forall xs, max_over (max_or_none xs) xs.
Proof.
  intros [|x xs]; simpl; [reflexivity|].
  exists (max_from x xs); split; [reflexivity|]; apply max_from_spec.
Qed.

(** C5: each statistic is the extremum over exactly the observations that
    supply the metric, and [None] when none does; the empty list gives
    all-[None] statistics; a single supplied temperature [t] gives
    [tmin = tmax = t]. *)
Theorem compute_region_stats_spec : forall observations,
  let s := compute_region_stats observations in
  min_over (tmin s) (present temp observations) /\
  max_over (tmax s) (present temp observations) /\
  max_over (pop_max s) (present precip_prob observations) /\
  max_over (wind_max s) (present wind observations) /\
  max_over (gust_max s) (present gust observations) /\
  compute_region_stats [] = mkRegionStats None None None None None /\
  (forall x, present temp observations = [x] -> tmin s = Some x /\ tmax s = Some x).
Proof.
  intros observations.
  destruct observations as [|o os] eqn:E.
  - simpl; repeat split; intros; discriminate.
  - rewrite <- E; cbv zeta.
    assert (Hs : compute_region_stats observations =
                 mkRegionStats (min_or_none (present temp observations))
                               (max_or_none (present temp observations))
                               (max_or_none (present precip_prob observations))
                               (max_or_none (present wind observations))
                               (max_or_none (present gust observations)))
      by (rewrite E; reflexivity).
    rewrite Hs; simpl.
    split; [apply min_or_none_spec|].
    split; [apply max_or_none_spec|].
    split; [apply max_or_none_spec|].
    split; [apply max_or_none_spec|].
    split; [apply max_or_none_spec|].
    split; [reflexivity|].
    intros x Ht; rewrite Ht; split; reflexivity.
Qed.

End RegionStatsFacts.

(* ------------------------------------------------------------------ *)
(** ** Lists: truncation, insertion sort *)

Module SortFacts.

Lemma firstn_incl {A} : forall n (l : list A) x, In x (firstn n l) -> In x l.
Proof.
  induction n as [|n IH]; intros [|y l] x H; simpl in *; try contradiction.
  destruct H as [H|H]; [left; exact H | right; eapply IH; exact H].
Qed.

Lemma firstn_NoDup {A} : forall n (l : list A), NoDup l -> NoDup (firstn n l).
Proof.
  induction n as [|n IH]; intros [|y l] H; simpl; try constructor;
    inversion H as [|? ? Hy Hl]; subst.
  - intros Hin; apply firstn_incl in Hin; contradiction.
  - apply IH; exact Hl.
Qed.

Lemma firstn_length_le {A} : forall n (l : list A), (length (firstn n l) <= n)%nat.
Proof.
  induction n as [|n IH]; intros [|y l]; simpl; try lia.
  specialize (IH l); lia.
Qed.

Lemma firstn_short {A} : forall n (l : list A),
  (length (firstn n l) < n)%nat -> firstn n l = l.
Proof.
  induction n as [|n IH]; intros [|y l] H; simpl in *; try lia; try reflexivity.
  rewrite IH; [reflexivity | lia].
Qed.

Lemma firstn_Sorted {A} (R : A -> A -> Prop) : forall n l,
  Sorted R l -> Sorted R (firstn n l).
Proof.
  induction n as [|n IH]; intros [|y l] H; simpl; try constructor.
  - apply IH; exact (proj1 (Sorted_inv H)).
  - apply Sorted_inv in H; destruct H as [_ Hd].
    destruct n as [|n]; simpl; [constructor|].
    destruct l as [|z l]; simpl; constructor.
    inversion Hd; assumption.
Qed.

Lemma insert_sorted_perm : forall x l, Permutation (Str.insert_sorted x l) (x :: l).
Proof.
  intros x l; induction l as [|y l IH]; simpl; [reflexivity|].
  destruct (String.leb x y); [reflexivity|].
  rewrite IH; apply perm_swap.
Qed.

Lemma sort_strings_perm : forall l, Permutation (Str.sort_strings l) l.
Proof.
  unfold Str.sort_strings; induction l as [|x l IH]; simpl; [reflexivity|].
  rewrite insert_sorted_perm, IH; reflexivity.
Qed.

Definition str_le (a b : string) : Prop := String.leb a b = true.

Lemma insert_sorted_sorted : forall x l,
  Sorted str_le l -> Sorted str_le (Str.insert_sorted x l).
Proof.
  intros x l; induction l as [|y l IH]; intros H; simpl.
  - repeat constructor.
  - destruct (String.leb x y) eqn:Hxy.
    + constructor; [exact H | constructor; exact Hxy].
    + apply Sorted_inv in H; destruct H as [Hl Hd].
      assert (Hyx : str_le y x).
      { destruct (String.leb_total x y) as [E|E]; [congruence | exact E]. }
      constructor; [apply IH; exact Hl|].
      destruct l as [|z l]; simpl; [constructor; exact Hyx|].
      destruct (String.leb x z); constructor; [exact Hyx|].
      inversion Hd; assumption.
Qed.

Lemma sort_strings_sorted : forall l, Sorted str_le (Str.sort_strings l).
Proof.
  unfold Str.sort_strings; induction l as [|x l IH]; simpl; [constructor|].
  apply insert_sorted_sorted; exact IH.
Qed.

End SortFacts.

(* ------------------------------------------------------------------ *)
(** ** Alert summaries *)

Module AlertFacts.

Import Worldview SortFacts.

Lemma lookup_dict_set {A} : forall (g : list (string * A)) k v e,
  lookup (dict_set g k v) e = if String.eqb e k then Some v else lookup g e.
Proof.
  induction g as [|[k' v'] g IH]; intros k v e; simpl.
  - destruct (String.eqb e k); reflexivity.
  - destruct (String.eqb k k') eqn:Ekk'.
    + apply String.eqb_eq in Ekk'; subst k'; simpl.
      destruct (String.eqb e k); reflexivity.
    + simpl; rewrite IH.
      destruct (String.eqb e k') eqn:Eek', (String.eqb e k) eqn:Eek; try reflexivity.
      apply String.eqb_eq in Eek', Eek; subst; rewrite String.eqb_refl in Ekk'; discriminate.
Qed.

Lemma keys_dict_set {A} : forall (g : list (string * A)) k v x,
  In x (map fst (dict_set g k v)) <-> x = k \/ In x (map fst g).
Proof.
  induction g as [|[k' v'] g IH]; intros k v x; simpl.
  - split; intros [H|H]; try contradiction; left; congruence.
  - destruct (String.eqb k k') eqn:Ekk'; simpl.
    + apply String.eqb_eq in Ekk'; subst k'; split; intros [H|H]; auto; left; congruence.
    + rewrite IH; tauto.
Qed.

Lemma dict_set_NoDup {A} : forall (g : list (string * A)) k v,
  NoDup (map fst g) -> NoDup (map fst (dict_set g k v)).
Proof.
  induction g as [|[k' v'] g IH]; intros k v H; simpl.
  - repeat constructor; simpl; tauto.
  - inversion H as [|? ? Hn Hg]; subst.
    destruct (String.eqb k k') eqn:Ekk'; simpl; constructor; auto.
    rewrite keys_dict_set; intros [E|E]; [|contradiction].
    subst; rewrite String.eqb_refl in Ekk'; discriminate.
Qed.

Lemma lookup_In {A} : forall (g : list (string * A)) k v,
  NoDup (map fst g) -> In (k, v) g -> lookup g k = Some v.
Proof.
  induction g as [|[k' v'] g IH]; intros k v Hn Hin; simpl in *; [contradiction|].
  inversion Hn as [|? ? Hk' Hg]; subst.
  destruct Hin as [E|Hin].
  - inversion E; subst; rewrite String.eqb_refl; reflexivity.
  - destruct (String.eqb k k') eqn:E.
    + apply String.eqb_eq in E; subst k'.
      exfalso; apply Hk'; apply (in_map fst) in Hin; exact Hin.
    + apply IH; assumption.
Qed.

Lemma lookup_group_step : forall g a ev,
  lookup (group_step g a) ev = gstep ev (lookup g ev) a.
Proof.
  intros g a ev; unfold group_step, gstep.
  destruct (lookup g (event a)) as [[c ars]|] eqn:L;
    rewrite lookup_dict_set;
    destruct (String.eqb ev (event a)) eqn:E; try reflexivity;
    apply String.eqb_eq in E; subst ev; rewrite L; reflexivity.
Qed.

Lemma lookup_group_fold : forall l g ev,
  lookup (fold_left group_step l g) ev = fold_left (gstep ev) l (lookup g ev).
Proof.
  induction l as [|a l IH]; intros g ev; simpl; [reflexivity|].
  rewrite IH, lookup_group_step; reflexivity.
Qed.

Lemma group_NoDup : forall l g,
  NoDup (map fst g) -> NoDup (map fst (fold_left group_step l g)).
Proof.
  induction l as [|a l IH]; intros g H; simpl; [exact H|].
  apply IH; unfold group_step.
  destruct (lookup g (event a)) as [[c ars]|]; apply dict_set_NoDup; exact H.
Qed.

Lemma count_fold : forall ev l o,
  group_count (fold_left (gstep ev) l o) = (group_count o + count_event ev l)%nat.
Proof.
  intros ev; induction l as [|a l IH]; intros o; simpl.
  - unfold count_event; simpl; lia.
  - rewrite IH; unfold count_event, gstep; simpl.
    destruct (String.eqb ev (event a)); simpl; [|reflexivity].
    destruct o as [[c ars]|]; simpl; lia.
Qed.

Lemma set_update_In : forall xs s x,
  In x (set_update s xs) <-> In x s \/ In x xs.
Proof.
  unfold set_update; induction xs as [|y xs IH]; intros s x; simpl.
  - tauto.
  - rewrite IH.
    destruct (in_dec string_dec y s) as [Hy|Hy].
    + split; [tauto|]; intros [H|[H|H]]; subst; tauto.
    + rewrite in_app_iff; simpl; tauto.
Qed.

Lemma set_update_NoDup : forall xs s, NoDup s -> NoDup (set_update s xs).
Proof.
  unfold set_update; induction xs as [|y xs IH]; intros s H; simpl; [exact H|].
  apply IH.
  destruct (in_dec string_dec y s) as [Hy|Hy]; [exact H|].
  apply NoDup_app; [exact H | repeat constructor; simpl; tauto |].
  intros z Hz [Ez|[]]; subst; contradiction.
Qed.

Lemma areas_fold : forall ev l o x,
  In x (group_areas (fold_left (gstep ev) l o)) <->
  In x (group_areas o) \/
  exists a, In a l /\ event a = ev /\ In x (firstn 2 (areas a)).
Proof.
  intros ev; induction l as [|a l IH]; intros o x; simpl.
  - split; [tauto|]; intros [H|[a [[] _]]]; exact H.
  - rewrite IH; unfold gstep.
    destruct (String.eqb ev (event a)) eqn:E.
    + apply String.eqb_eq in E.
      assert (Ho : In x (group_areas (let '(count, ars) :=
                     match o with Some g => g | None => (0%nat, []) end in
                     Some (S count, set_update ars (firstn 2 (areas a))))) <->
                   In x (group_areas o) \/ In x (firstn 2 (areas a))).
      { destruct o as [[c ars]|]; simpl; rewrite set_update_In; simpl; tauto. }
      rewrite Ho; split.
      * intros [[H|H]|[b [Hb [Eb Hx]]]]; [tauto | | ].
        -- right; exists a; auto.
        -- right; exists b; auto.
      * intros [H|[b [[Eb|Hb] [Eev Hx]]]]; [tauto| |].
        -- subst b; left; right; exact Hx.
        -- right; exists b; auto.
    + split.
      * intros [H|[b [Hb [Eb Hx]]]]; [tauto|]; right; exists b; auto.
      * intros [H|[b [[Eb|Hb] [Eev Hx]]]]; [tauto| |].
        -- subst b; rewrite Eev, String.eqb_refl in E; discriminate.
        -- right; exists b; auto.
Qed.

Lemma areas_fold_NoDup : forall ev l o,
  NoDup (group_areas o) -> NoDup (group_areas (fold_left (gstep ev) l o)).
Proof.
  intros ev; induction l as [|a l IH]; intros o H; simpl; [exact H|].
  apply IH; unfold gstep.
  destruct (String.eqb ev (event a)); [|exact H].
  destruct o as [[c ars]|]; simpl in *; apply set_update_NoDup;
    [exact H | constructor].
Qed.

Definition by_count_desc (x y : AlertSummary) : Prop := (s_count y <= s_count x)%nat.

Lemma insert_desc_perm : forall x l, Permutation (insert_desc x l) (x :: l).
Proof.
  intros x l; induction l as [|y l IH]; simpl; [reflexivity|].
  destruct (s_count y <? s_count x)%nat; [reflexivity|].
  rewrite IH; apply perm_swap.
Qed.

Lemma sort_by_count_perm_aux : forall l acc,
  Permutation (fold_left (fun acc x => insert_desc x acc) l acc) (l ++ acc).
Proof.
  induction l as [|x l IH]; intros acc; simpl; [reflexivity|].
  rewrite IH, insert_desc_perm; apply Permutation_sym, Permutation_middle.
Qed.

Lemma sort_by_count_perm : forall l, Permutation (sort_by_count_desc l) l.
Proof.
  intros l; unfold sort_by_count_desc; rewrite sort_by_count_perm_aux, app_nil_r.
  reflexivity.
Qed.

Lemma insert_desc_sorted : forall x l,
  Sorted by_count_desc l -> Sorted by_count_desc (insert_desc x l).
Proof.
  intros x l; induction l as [|y l IH]; intros H; simpl.
  - repeat constructor.
  - destruct (s_count y <? s_count x)%nat eqn:Hyx.
    + apply Nat.ltb_lt in Hyx.
      constructor; [exact H | constructor; unfold by_count_desc; lia].
    + apply Nat.ltb_ge in Hyx.
      apply Sorted_inv in H; destruct H as [Hl Hd].
      constructor; [apply IH; exact Hl|].
      destruct l as [|z l]; simpl; [constructor; unfold by_count_desc; lia|].
      destruct (s_count z <? s_count x)%nat; constructor;
        [unfold by_count_desc; lia|].
      inversion Hd; assumption.
Qed.

Lemma sort_by_count_sorted : forall l, Sorted by_count_desc (sort_by_count_desc l).
Proof.
  intros l; unfold sort_by_count_desc.
  assert (Hg : forall l acc, Sorted by_count_desc acc ->
            Sorted by_count_desc (fold_left (fun acc x => insert_desc x acc) l acc)).
  { induction l0 as [|x l0 IH]; intros acc H; simpl; [exact H|].
    apply IH, insert_desc_sorted, H. }
  apply Hg; constructor.
Qed.

Lemma summarize_alerts_eq : forall alerts,
  summarize_alerts alerts =
  firstn 5 (sort_by_count_desc (map to_entry (group_alerts alerts))).
Proof. intros [|a l]; reflexivity. Qed.

Lemma entry_of_group : forall alerts e,
  In e (summarize_alerts alerts) ->
  exists ars, lookup (group_alerts alerts) (s_event e) = Some (s_count e, ars) /\
              s_areas e = firstn 5 (Str.sort_strings ars).
Proof.
  intros alerts e Hin.
  rewrite summarize_alerts_eq in Hin.
  apply firstn_incl, (Permutation_in _ (sort_by_count_perm _)), in_map_iff in Hin.
  destruct Hin as [[ev [c ars]] [He Hg]]; subst e; simpl.
  exists ars; split; [|reflexivity].
  apply lookup_In; [apply group_NoDup; constructor | exact Hg].
Qed.

(** C6 (amended): the summary has at most five entries, with distinct
    event names, sorted by descending count; each entry's count is the
    number of alerts with exactly its event name; its areas are distinct,
    at most five, each one of the first two areas of some alert of that
    event, and when fewer than five are listed they are all such areas. *)
Theorem summarize_alerts_spec : forall alerts,
  let out := summarize_alerts alerts in
  (length out <= 5)%nat /\
  Sorted by_count_desc out /\
  NoDup (map s_event out) /\
  (forall e, In e out ->
     s_count e = count_event (s_event e) alerts /\
     NoDup (s_areas e) /\
     (length (s_areas e) <= 5)%nat /\
     (forall x, In x (s_areas e) ->
        exists a, In a alerts /\ event a = s_event e /\ In x (firstn 2 (areas a))) /\
     ((length (s_areas e) < 5)%nat ->
        forall a x, In a alerts -> event a = s_event e -> In x (firstn 2 (areas a)) ->
        In x (s_areas e))).
Proof.
  intros alerts; cbv zeta.
  split; [rewrite summarize_alerts_eq; apply firstn_length_le|].
  split; [rewrite summarize_alerts_eq; apply firstn_Sorted, sort_by_count_sorted|].
  split.
  { rewrite summarize_alerts_eq, <- firstn_map; apply firstn_NoDup.
    eapply Permutation_NoDup; [apply Permutation_map, Permutation_sym, sort_by_count_perm|].
    rewrite map_map.
    replace (map (fun x => s_event (to_entry x)) (group_alerts alerts))
      with (map fst (group_alerts alerts))
      by (apply map_ext; intros [ev [c ars]]; reflexivity).
    apply group_NoDup; constructor. }
  intros e He.
  destruct (entry_of_group alerts e He) as [ars [Hl Ha]].
  unfold group_alerts in Hl; rewrite lookup_group_fold in Hl; simpl in Hl.
  split.
  { pose proof (count_fold (s_event e) alerts None) as Hc.
    rewrite Hl in Hc; simpl in Hc; exact Hc. }
  assert (Hnd : NoDup ars).
  { pose proof (areas_fold_NoDup (s_event e) alerts None (NoDup_nil _)) as Hn.
    rewrite Hl in Hn; exact Hn. }
  assert (Hars : forall x, In x ars <->
            exists a, In a alerts /\ event a = s_event e /\ In x (firstn 2 (areas a))).
  { intros x; pose proof (areas_fold (s_event e) alerts None x) as Hx.
    rewrite Hl in Hx; simpl in Hx; rewrite Hx; tauto. }
  rewrite Ha.
  split; [apply firstn_NoDup; eapply Permutation_NoDup;
          [apply Permutation_sym, sort_strings_perm | exact Hnd]|].
  split; [apply firstn_length_le|].
  split.
  - intros x Hx.
    apply Hars, (Permutation_in _ (sort_strings_perm ars)), (firstn_incl _ _ _ Hx).
  - intros Hs a x Ha' Hev Hx.
    rewrite (firstn_short _ _ Hs).
    apply (Permutation_in _ (Permutation_sym (sort_strings_perm ars))), Hars.
    exists a; auto.
Qed.

(** C6 counterexample: the areas of an entry are not the union of the
    affected areas of its alerts; only the first two areas of each alert
    are collected, so a third area is dropped although the cap of five is
    not reached. *)
Lemma summarize_alerts_union_counterexample :
  let alert := mkAlert "Flood Warning" "Severe" ["A"; "B"; "C"] None in
  summarize_alerts [alert] = [mkAlertSummary "Flood Warning" 1 ["A"; "B"]] /\
  In "C" (areas alert) /\
  ~ In "C" (flat_map s_areas (summarize_alerts [alert])).
Proof.
  cbv zeta; split; [vm_compute; reflexivity|].
  split; [simpl; tauto|].
  vm_compute; intros [H|[H|[]]]; discriminate.
Qed.

End AlertFacts.

(* ------------------------------------------------------------------ *)
(** ** Feature-field enumeration *)

Module FieldFacts.

Import Forecaster SortFacts.

Lemma sorted_set_In : forall l s, In s (sorted_set l) <-> In s l.
Proof.
  intros l s; unfold sorted_set; split; intros H.
  - apply (nodup_In string_dec), (Permutation_in _ (sort_strings_perm _)); exact H.
  - apply (Permutation_in _ (Permutation_sym (sort_strings_perm _))), nodup_In; exact H.
Qed.

Lemma field_names_In : forall k v s,
  In s (field_names k v) <->
  in_none_empty v = false /\
  ((k = "units" /\ s = "units") \/
   (k <> "units" /\
    ((exists inner ik iv, v = PDict inner /\ In (ik, iv) inner /\ s = k ++ "." ++ ik) \/
     (is_dict v = false /\ s = k)))).
Proof.
  intros k v s; unfold field_names.
  destruct (in_none_empty v) eqn:Hv; simpl.
  { split; [tauto | intros [E _]; discriminate]. }
  destruct (String.eqb_spec k "units") as [Ek|Ek]; simpl.
  { split.
    - intros [E|[]]; split; [reflexivity | left; split; [exact Ek | symmetry; exact E]].
    - intros [_ [[_ E]|[Nk _]]]; [left; symmetry; exact E | contradiction]. }
  destruct v as [| b | z | q | str | xs | kvs]; simpl;
    try (split;
         [intros [E|[]]; split; [reflexivity | right; split; [exact Ek | right; split; [reflexivity | symmetry; exact E]]]
         | intros [_ [[Ek' _]|[_ [[inner [ik [iv [Ed _]]]]|[_ E]]]]];
           [contradiction | discriminate | left; symmetry; exact E]]).
  rewrite in_map_iff; split.
  - intros [[ik iv] [E Hin]]; simpl in E.
    split; [reflexivity|]; right; split; [exact Ek|]; left.
    exists kvs, ik, iv; split; [reflexivity|]; split; [exact Hin | symmetry; exact E].
  - intros [_ [[Ek' _]|[_ [[inner [ik [iv [Ed [Hin E]]]]]|[Hd _]]]]];
      [contradiction | | discriminate].
    injection Ed as ->; exists (ik, iv); split; [symmetry; exact E | exact Hin].
Qed.

(** C9 (amended): the enumerator lists a name exactly when some top-level
    entry whose value is not None, [] or {} contributes it: the key
    "units" contributes "units" alone, any other dict-valued key one
    "key.subkey" per inner key, any other key its own name. The result
    has no repeats and is sorted, and the fallback's sections, which hold
    the assumptions text, depend only on the Feature Pack and the explain
    flag. *)
Theorem enumerate_feature_fields_spec : forall feature_pack,
  let out := enumerate_feature_fields feature_pack in
  (forall s, In s out <->
     exists k v, In (k, v) feature_pack /\ in_none_empty v = false /\
       ((k = "units" /\ s = "units") \/
        (k <> "units" /\
         ((exists inner ik iv, v = PDict inner /\ In (ik, iv) inner /\ s = k ++ "." ++ ik) \/
          (is_dict v = false /\ s = k))))) /\
  NoDup out /\
  Sorted str_le out /\
  (forall env explain p1 p2 ps1 ps2 r1 r2 m1 m2,
     sections (fallback_response env feature_pack explain p1 ps1 r1 m1) =
     sections (fallback_response env feature_pack explain p2 ps2 r2 m2)).
Proof.
  intros fp; cbv zeta; unfold enumerate_feature_fields.
  split.
  { intros s; rewrite sorted_set_In, in_flat_map; split.
    - intros [[k v] [Hin Hs]]; apply field_names_In in Hs; exists k, v; auto.
    - intros [k [v [Hin Hs]]]; exists (k, v); split; [exact Hin|].
      apply field_names_In; exact Hs. }
  split.
  { unfold sorted_set; eapply Permutation_NoDup;
      [apply Permutation_sym, sort_strings_perm | apply NoDup_nodup]. }
  split; [apply sort_strings_sorted|].
  intros; reflexivity.
Qed.

(** C9 counterexample: the dict-valued "units" section contributes the
    bare name "units", not one "units.subkey" per inner key. *)
Lemma enumerate_units_counterexample :
  enumerate_feature_fields [("units", unit_pack_imperial)] = ["units"] /\
  ~ In "units.temp" (enumerate_feature_fields [("units", unit_pack_imperial)]).
Proof.
  split; [vm_compute; reflexivity|].
  vm_compute; intros [H|[]]; discriminate.
Qed.

End FieldFacts.

(* ------------------------------------------------------------------ *)
(** ** Feature Pack construction *)

Module OrchestratorFacts.

Import Fetch Forecaster Orchestrator.

Lemma bind_inr {A B} : forall (m : res A) (k : A -> res B) x,
  bind m k = inr x -> exists a, m = inr a /\ k a = inr x.
Proof. intros [e|a] k x H; [discriminate | exists a; auto]. Qed.

Lemma truthy_meaningful : forall v, truthy v = true -> meaningful v.
Proof.
  intros [| b | z | q | s | [|x xs] | [|kv kvs]] H; simpl in *; try discriminate; auto.
  - intros E; subst; discriminate.
Qed.

Lemma dict_set_nonempty {A} : forall (g : list (string * A)) k v, dict_set g k v <> [].
Proof.
  intros [|[k' v'] g] k v; simpl; [discriminate|].
  destruct (String.eqb k k'); discriminate.
Qed.

Lemma dict_set_Forall {A} (P : A -> Prop) : forall (g : list (string * A)) k v,
  Forall (fun kv => P (snd kv)) g -> P v -> Forall (fun kv => P (snd kv)) (dict_set g k v).
Proof.
  induction g as [|[k' v'] g IH]; intros k v Hg Hv; simpl.
  - constructor; [exact Hv | constructor].
  - inversion Hg as [|? ? Hk' Hr]; subst.
    destruct (String.eqb k k'); constructor; auto.
Qed.

Lemma set_if_meaningful : forall fp k v,
  all_meaningful fp -> all_meaningful (set_if fp k v).
Proof.
  intros fp k v H; unfold set_if.
  destruct (truthy v) eqn:T; [|exact H].
  apply dict_set_Forall; [exact H | apply truthy_meaningful, T].
Qed.

Lemma base_meaningful : forall w, all_meaningful (base_feature_pack w).
Proof.
  intros w; unfold base_feature_pack, unit_pack, all_meaningful.
  repeat constructor; simpl; destruct (String.eqb _ "metric"); discriminate.
Qed.

Lemma quick_fetches_meaningful : forall w fp d fp' d',
  quick_fetches w fp d = (fp', d') -> all_meaningful fp -> all_meaningful fp'.
Proof.
  intros w fp d fp' d' H Hfp; unfold quick_fetches in H.
  destruct (fetch_in w "quick_obs" d) as [o d1].
  destruct (fetch_in w "quick_profile" d1) as [p d2].
  destruct (fetch_in w "quick_alerts" d2) as [a d3].
  injection H as <- _.
  repeat apply set_if_meaningful; exact Hfp.
Qed.

Ltac split_res :=
  repeat match goal with
  | H : inl _ = inr _ |- _ => discriminate H
  | H : ret _ = _ |- _ => unfold ret in H
  | H : raise _ = _ |- _ => unfold raise in H
  | H : inr _ = inr _ |- _ => injection H; clear H; intros; subst
  | H : (_, _) = (_, _) |- _ => injection H; clear H; intros; subst
  | H : bind ?m _ = inr _ |- _ =>
      let a := fresh "a" in let Hm := fresh "Hm" in
      apply bind_inr in H; destruct H as [a [Hm H]]
  | H : (let '(_, _) := ?p in _) = _ |- _ =>
      let x := fresh "x" in let y := fresh "y" in let E := fresh "E" in
      destruct p as [x y] eqn:E
  | H : (if ?c then _ else _) = _ |- _ => destruct c eqn:?
  | H : (match ?c with _ => _ end) = _ |- _ => destruct c eqn:?
  end.

Ltac close_meaningful :=
  repeat (apply set_if_meaningful || apply base_meaningful ||
          (eapply quick_fetches_meaningful; [eassumption|])).

Lemma forecast_pack_meaningful : forall w wt h f v fp d,
  forecast_pack w wt h f v = inr (fp, d) -> all_meaningful fp.
Proof.
  intros w wt h f v fp d H; unfold forecast_pack in H.
  split_res; close_meaningful.
Qed.

Lemma story_pack_meaningful : forall w wt h fp d,
  story_pack w wt h = inr (fp, d) -> all_meaningful fp.
Proof.
  intros w wt h fp d H; unfold story_pack in H.
  split_res; close_meaningful.
Qed.

Lemma alerts_pack_meaningful : forall w fp d,
  alerts_pack w = inr (fp, d) -> all_meaningful fp.
Proof.
  intros w fp d H; unfold alerts_pack in H.
  split_res; close_meaningful.
Qed.

Lemma risk_pack_meaningful : forall w hz fp d,
  risk_pack w hz = inr (fp, d) -> all_meaningful fp.
Proof.
  intros w hz fp d H; unfold risk_pack in H.
  split_res;
    try (apply dict_set_Forall; [|simpl; apply dict_set_nonempty]);
    close_meaningful.
Qed.

(** C4: every Feature Pack a handler builds maps each of its top-level
    keys to a value that is neither None nor an empty string, list or
    dict. *)
Theorem handler_pack_meaningful : forall w r fp d,
  handler_pack w r = inr (fp, d) ->
  forall k v, In (k, v) fp -> meaningful v.
Proof.
  intros w r fp d H k v Hin.
  assert (Hall : all_meaningful fp).
  { destruct r; simpl in H.
    - injection H as <- _; apply base_meaningful.
    - eapply forecast_pack_meaningful; exact H.
    - eapply risk_pack_meaningful; exact H.
    - eapply alerts_pack_meaningful; exact H.
    - eapply story_pack_meaningful; exact H. }
  unfold all_meaningful in Hall; rewrite Forall_forall in Hall.
  exact (Hall (k, v) Hin).
Qed.


Lemma handler_pack_meaningful_witness :
  exists fp d,
    handler_pack Samples.world_resolved (Forecast None "24h" (Some "hiking") true) = inr (fp, d) /\
    In ("place", Samples.boulder) fp /\
    (forall k v, In (k, v) fp -> meaningful v).
Proof.
  destruct (handler_pack Samples.world_resolved (Forecast None "24h" (Some "hiking") true))
    as [e|[fp d]] eqn:E; [vm_compute in E; discriminate E|].
  exists fp, d; split; [reflexivity|]; split.
  - vm_compute in E; injection E as <- _; simpl; tauto.
  - exact (handler_pack_meaningful _ _ fp d E).
Defined.

Lemma lookup_set_if_other : forall fp k k' v,
  k' <> k -> Worldview.lookup (set_if fp k v) k' = Worldview.lookup fp k'.
Proof.
  intros fp k k' v Hk; unfold set_if.
  destruct (truthy v); [|reflexivity].
  rewrite AlertFacts.lookup_dict_set.
  destruct (String.eqb_spec k' k); [contradiction | reflexivity].
Qed.

Lemma lookup_set_if_same : forall fp k v,
  Worldview.lookup (set_if fp k v) k = if truthy v then Some v else Worldview.lookup fp k.
Proof.
  intros fp k v; unfold set_if.
  destruct (truthy v); [|reflexivity].
  rewrite AlertFacts.lookup_dict_set, String.eqb_refl; reflexivity.
Qed.

Lemma quick_fetches_lookup : forall w fp d fp' d' k,
  quick_fetches w fp d = (fp', d') ->
  k <> "obs_quick" -> k <> "profile_quick" -> k <> "alerts_quick" ->
  Worldview.lookup fp' k = Worldview.lookup fp k.
Proof.
  intros w fp d fp' d' k H H1 H2 H3; unfold quick_fetches in H.
  destruct (fetch_in w "quick_obs" d) as [o d1].
  destruct (fetch_in w "quick_profile" d1) as [p d2].
  destruct (fetch_in w "quick_alerts" d2) as [a d3].
  injection H as <- _.
  rewrite !lookup_set_if_other by assumption; reflexivity.
Qed.

Lemma build_window_dict : forall w pi wt h v,
  build_window w pi wt h = inr v -> exists win, v = PDict win /\ win <> [].
Proof.
  intros w pi wt h v H; unfold build_window in H.
  apply bind_inr in H; destruct H as [tz [_ H]].
  apply bind_inr in H; destruct H as [s [_ H]].
  destruct (negb _); [discriminate H|].
  injection H as <-.
  eexists; split; [reflexivity|].
  cbv zeta.
  repeat match goal with
         | |- context [if ?b then _ else _] => destruct b
         | |- context [match ?x with _ => _ end] => destruct x
         end; discriminate.
Qed.

(** C8 (amended): for a forecast or story request, the built Feature Pack
    holds "place" exactly when point-context resolution returned a truthy
    value (and then holds that value), while it always holds a non-empty
    "window", whether or not resolution succeeded. *)
Theorem place_and_window_presence : forall w r fp d,
  builds_window r = true ->
  handler_pack w r = inr (fp, d) ->
  Worldview.lookup fp "place" =
    (if truthy (place_info_of w) then Some (place_info_of w) else None) /\
  exists win, Worldview.lookup fp "window" = Some (PDict win) /\ win <> [].
Proof.
  intros w r fp d Hr H; unfold place_info_of.
  destruct r; try discriminate Hr; simpl in H;
    [unfold forecast_pack in H | unfold story_pack in H];
    destruct (fetch_in w "point_context" initial_diag) as [pi d0] eqn:E; cbn [fst];
    apply bind_inr in H; destruct H as [win [Hw H]];
    destruct (build_window_dict _ _ _ _ _ Hw) as [ws [-> Hne]].
  all: split_res.
  all: split; [| exists ws; split; [|exact Hne]].
  all: rewrite ?lookup_set_if_other by discriminate.
  all: try match goal with
       | Hq : quick_fetches _ _ _ = (_, _) |- _ =>
           rewrite (quick_fetches_lookup _ _ _ _ _ _ Hq) by discriminate
       end.
  all: rewrite ?lookup_set_if_other by discriminate.
  all: rewrite lookup_set_if_same.
  all: first [ destruct ws as [|? ?]; [exfalso; apply Hne; reflexivity | reflexivity]
             | match goal with Hp : truthy ?p = _ |- context [truthy ?p] => rewrite Hp; reflexivity end ].
Qed.

Lemma place_and_window_presence_witness :
  exists fp d,
    builds_window (Forecast None "24h" None false) = true /\
    handler_pack Samples.world_resolved (Forecast None "24h" None false) = inr (fp, d) /\
    Worldview.lookup fp "place" = Some Samples.boulder /\
    exists win, Worldview.lookup fp "window" = Some (PDict win) /\ win <> [].
Proof.
  destruct (handler_pack Samples.world_resolved (Forecast None "24h" None false))
    as [e|[fp d]] eqn:E; [vm_compute in E; discriminate E|].
  destruct (place_and_window_presence Samples.world_resolved (Forecast None "24h" None false)
              fp d eq_refl E) as [Hp Hw].
  exists fp, d; split; [reflexivity|]; split; [reflexivity|].
  split; [rewrite Hp; vm_compute; reflexivity | exact Hw].
Defined.

(** C8 counterexample: when point-context resolution returns None, the
    forecast Feature Pack has no "place" but still has a "window". *)
Lemma window_without_place_counterexample :
  place_info_of Samples.world_unresolved = PNone /\
  exists fp d,
    handler_pack Samples.world_unresolved (Forecast None "24h" None false) = inr (fp, d) /\
    Worldview.lookup fp "place" = None /\
    Worldview.lookup fp "window" <> None.
Proof.
  split; [reflexivity|].
  destruct (handler_pack Samples.world_unresolved (Forecast None "24h" None false))
    as [e|[fp d]] eqn:E; [vm_compute in E; discriminate E|].
  exists fp, d; split; [reflexivity|].
  vm_compute in E; injection E as <- _.
  split; [reflexivity | discriminate].
Qed.

End OrchestratorFacts.

(* ------------------------------------------------------------------ *)
(** ** The OpenRouter client for any configuration *)

Module ClientFacts.

Import OpenRouter Samples.

Lemma continue_after_lt : forall r a o,
  continue_after r a o = true -> (a < r)%Z.
Proof.
  intros r a [s [d|]| |]; simpl; intro H.
  - destruct (negb (is_success s)); [|discriminate].
    apply andb_true_iff in H; destruct H as [_ H]; apply Z.ltb_lt; exact H.
  - destruct (negb (is_success s));
      [apply andb_true_iff in H; destruct H as [_ H]|]; apply Z.ltb_lt; exact H.
  - apply Z.ltb_lt; exact H.
  - apply Z.ltb_lt; exact H.
Qed.

Lemma stop_result_success : forall cfg a o resp,
  stop_result cfg a o = inr resp ->
  exists s, o = HttpResponse s (Some (resp_raw resp)) /\ is_success s = true /\
    resp_attempts resp = a /\
    extract_first_message (resp_raw resp) = inr (Some (resp_text resp)).
Proof.
  intros cfg a [s [d|]| |] resp; simpl; try discriminate.
  - destruct (is_success s) eqn:Hs; simpl; [|discriminate].
    destruct (extract_first_message d) as [e|[t|]] eqn:Ex; simpl; try discriminate.
    destruct (py_get_default d "model" (PStr (model cfg))) as [e|m]; simpl; [discriminate|].
    destruct (py_get d "usage") as [e|u]; simpl; [discriminate|].
    intro H; injection H as <-; simpl.
    exists s; repeat split; assumption.
  - destruct (is_success s); discriminate.
Qed.

Lemma extract_first_message_nonempty : forall data t,
  extract_first_message data = inr (Some t) -> t <> "".
Proof.
  intros data t; unfold extract_first_message.
  destruct (py_get data "choices") as [e|choices]; simpl; [discriminate|].
  destruct choices as [| | | | |[|c0 cs]|]; try discriminate.
  destruct (match c0 with PDict kvs => dict_get kvs "message" | _ => PNone end)
    as [| | | | | |mkvs]; try discriminate.
  destruct (dict_get mkvs "content") as [| | | |s|parts|]; try discriminate.
  - destruct (String.eqb (Str.strip s) "") eqn:E; [discriminate|].
    intro H; injection H as <-; apply String.eqb_neq; exact E.
  - destruct (join_text_parts parts) as [e|combined]; simpl; [discriminate|].
    destruct (String.eqb (Str.strip combined) "") eqn:E; [discriminate|].
    intro H; injection H as <-; apply String.eqb_neq; exact E.
Qed.

Lemma completion_loop_trace : forall cfg post fuel attempt backoff ls,
  (0 < fuel)%nat -> Z.of_nat fuel = (retries cfg - attempt + 1)%Z ->
  exists n, (1 <= n <= fuel)%nat /\
    fst (completion_loop cfg post fuel attempt backoff ls) = retry_trace backoff attempt n /\
    (forall resp, snd (completion_loop cfg post fuel attempt backoff ls) = inr resp ->
       resp_attempts resp = (attempt + Z.of_nat n - 1)%Z).
Proof.
  induction fuel as [|fuel IH]; intros attempt backoff ls Hf Hr; [lia|].
  rewrite OpenRouterFacts.completion_loop_S.
  destruct (continue_after (retries cfg) attempt (post attempt)) eqn:C.
  - apply continue_after_lt in C.
    destruct (IH (attempt + 1)%Z (backoff * 2) (next_status (post attempt) ls))
      as [n [Hn [Hev Hat]]]; [lia|lia|].
    destruct (completion_loop cfg post fuel (attempt + 1) (backoff * 2)
                (next_status (post attempt) ls)) as [ev r]; simpl in *.
    exists (S n); split; [lia|]; split.
    + rewrite Hev; destruct n as [|n]; [lia|reflexivity].
    + intros resp Hresp; rewrite (Hat resp Hresp); lia.
  - exists 1%nat; split; [lia|]; split; [reflexivity|].
    simpl; intros resp Hresp.
    destruct (stop_result_success cfg attempt (post attempt) resp Hresp)
      as [s [_ [_ [Ha _]]]]; lia.
Qed.

Lemma completion_loop_success : forall cfg post fuel attempt backoff ls resp,
  snd (completion_loop cfg post fuel attempt backoff ls) = inr resp ->
  exists s, post (resp_attempts resp) = HttpResponse s (Some (resp_raw resp)) /\
    is_success s = true /\
    extract_first_message (resp_raw resp) = inr (Some (resp_text resp)).
Proof.
  induction fuel as [|fuel IH]; intros attempt backoff ls resp; [discriminate|].
  rewrite OpenRouterFacts.completion_loop_S.
  destruct (continue_after (retries cfg) attempt (post attempt)).
  - destruct (completion_loop cfg post fuel (attempt + 1) (backoff * 2)
                (next_status (post attempt) ls)) as [ev r] eqn:E; simpl.
    intro H; apply (IH (attempt + 1)%Z (backoff * 2) (next_status (post attempt) ls)).
    rewrite E; exact H.
  - simpl; intro H.
    destruct (stop_result_success cfg attempt (post attempt) resp H)
      as [s [Ho [Hs [Ha Hx]]]].
    exists s; rewrite Ha; split; [exact Ho|split; assumption].
Qed.

Lemma list_ascii_of_string_app : forall a b,
  list_ascii_of_string (a ++ b) = (list_ascii_of_string a ++ list_ascii_of_string b)%list.
Proof. induction a as [|c a IH]; intro b; simpl; [reflexivity|rewrite IH; reflexivity]. Qed.

(** X1: for any configuration with at least one retry, [chat_completion]
    makes [n] requests for some [1 <= n <= retries], numbered 1 to [n];
    between two requests it sleeps, starting at [backoff_factor] and
    doubling each time; when it returns a response, the response reports
    [attempts = n]. *)
Theorem chat_completion_trace : forall cfg post,
  (1 <= retries cfg)%Z ->
  exists n, (1 <= n)%nat /\ (Z.of_nat n <= retries cfg)%Z /\
    fst (chat_completion cfg post) = retry_trace (backoff_factor cfg) 1 n /\
    (forall resp, snd (chat_completion cfg post) = inr resp ->
       resp_attempts resp = Z.of_nat n).
Proof.
  intros cfg post Hr; unfold chat_completion.
  destruct (completion_loop_trace cfg post (Z.to_nat (retries cfg)) 1 (backoff_factor cfg)
              None) as [n [Hn [Hev Hat]]]; [lia|lia|].
  exists n; split; [lia|]; split; [lia|]; split; [exact Hev|].
  intros resp H; rewrite (Hat resp H); lia.
Qed.

Lemma chat_completion_trace_witness :
  (1 <= retries (default_config "key" "https://openrouter.ai/api/v1" "openrouter/auto" 0 1000))%Z
  /\ exists n, (1 <= n)%nat /\
    (Z.of_nat n <= retries (default_config "key" "https://openrouter.ai/api/v1"
                                "openrouter/auto" 0 1000))%Z /\
    fst (chat_completion (default_config "key" "https://openrouter.ai/api/v1"
                            "openrouter/auto" 0 1000) (fun _ => HttpTimeout)) =
      retry_trace (backoff_factor (default_config "key" "https://openrouter.ai/api/v1"
                                     "openrouter/auto" 0 1000)) 1 n /\
    (forall resp, snd (chat_completion (default_config "key" "https://openrouter.ai/api/v1"
                            "openrouter/auto" 0 1000) (fun _ => HttpTimeout)) = inr resp ->
       resp_attempts resp = Z.of_nat n).
Proof.
  split; [vm_compute; discriminate|].
  apply (chat_completion_trace
           (default_config "key" "https://openrouter.ai/api/v1" "openrouter/auto" 0 1000)
           (fun _ => HttpTimeout)).
  vm_compute; discriminate.
Defined.

(** X2: with [retries] zero or negative the loop body never runs:
    [chat_completion] sends no request, never sleeps and raises
    [OpenRouterError("OpenRouter request exhausted retries")] with no
    status code. *)
Theorem chat_completion_no_retries : forall cfg post,
  (retries cfg <= 0)%Z ->
  chat_completion cfg post =
    ([], raise (openrouter_error "OpenRouter request exhausted retries" None)).
Proof.
  intros cfg post Hr; unfold chat_completion.
  destruct (retries cfg) as [|p|p]; [reflexivity|lia|reflexivity].
Qed.

Lemma chat_completion_no_retries_witness :
  (retries (mkConfig "key" "https://openrouter.ai/api/v1" "openrouter/auto" 0 1000 30 0 1)
     <= 0)%Z /\
  chat_completion (mkConfig "key" "https://openrouter.ai/api/v1" "openrouter/auto" 0 1000 30 0 1)
    (fun _ => HttpTimeout) =
    ([], raise (openrouter_error "OpenRouter request exhausted retries" None)).
Proof.
  split; [vm_compute; discriminate|].
  apply chat_completion_no_retries; vm_compute; discriminate.
Defined.

(** X3: a response returned by [chat_completion] comes from a 2xx answer
    to the attempt it reports in [attempts], whose JSON body is [raw];
    its [text] is what [_extract_first_message] finds in that body, and is
    never empty. *)
Theorem chat_completion_success : forall cfg post resp,
  snd (chat_completion cfg post) = inr resp ->
  exists s, post (resp_attempts resp) = HttpResponse s (Some (resp_raw resp)) /\
    is_success s = true /\
    extract_first_message (resp_raw resp) = inr (Some (resp_text resp)) /\
    resp_text resp <> "".
Proof.
  intros cfg post resp H; unfold chat_completion in H.
  destruct (completion_loop_success cfg post _ _ _ _ resp H) as [s [Ho [Hs Hx]]].
  exists s; repeat split; try assumption.
  exact (extract_first_message_nonempty _ _ Hx).
Qed.

Lemma chat_completion_success_witness :
  exists resp,
    snd (chat_completion (default_config "key" "https://openrouter.ai/api/v1"
                            "openrouter/auto" 0 1000)
           (fun a => if (a =? 1)%Z then HttpResponse 503 None
                     else HttpResponse 200 (Some sample_ok_body))) = inr resp /\
    exists s, (if (resp_attempts resp =? 1)%Z then HttpResponse 503 None
               else HttpResponse 200 (Some sample_ok_body))
                = HttpResponse s (Some (resp_raw resp)) /\
      is_success s = true /\
      extract_first_message (resp_raw resp) = inr (Some (resp_text resp)) /\
      resp_text resp <> "".
Proof.
  destruct (snd (chat_completion (default_config "key" "https://openrouter.ai/api/v1"
                            "openrouter/auto" 0 1000)
           (fun a => if (a =? 1)%Z then HttpResponse 503 None
                     else HttpResponse 200 (Some sample_ok_body)))) as [e|resp] eqn:E;
    [vm_compute in E; discriminate E|].
  exists resp; split; [reflexivity|].
  exact (chat_completion_success _ _ resp E).
Defined.

(** X4: [chat_url] strips trailing slashes of [base_url] before adding
    [/chat/completions]: a base URL with one more trailing slash gives the
    same URL, and a base URL that does not end in a slash is used as it
    is. *)
Theorem chat_url_trailing_slash : forall cfg cfg',
  (base_url cfg = base_url cfg' ++ "/" -> chat_url cfg = chat_url cfg') /\
  (hd_error (rev (list_ascii_of_string (base_url cfg))) <> Some "/"%char ->
   chat_url cfg = base_url cfg ++ "/chat/completions").
Proof.
  intros cfg cfg'; split; unfold chat_url, Str.rstrip_char.
  - intro H; rewrite H, list_ascii_of_string_app; simpl.
    rewrite rev_unit; reflexivity.
  - intro H.
    assert (Hd : Str.drop_while (fun x => Ascii.eqb x "/"%char)
                   (rev (list_ascii_of_string (base_url cfg)))
                 = rev (list_ascii_of_string (base_url cfg))).
    { destruct (rev (list_ascii_of_string (base_url cfg))) as [|c l]; [reflexivity|].
      simpl; destruct (Ascii.eqb c "/") eqn:Ec; [|reflexivity].
      apply Ascii.eqb_eq in Ec; subst c; simpl in H; contradiction. }
    rewrite Hd, rev_involutive, string_of_list_ascii_of_string; reflexivity.
Qed.

End ClientFacts.

(* ------------------------------------------------------------------ *)
(** ** The forecaster's provider chain and [explain] *)

Module ForecasterExtraFacts.

Import OpenRouter Forecaster Samples.

Lemma completion_loop_no_gemini : forall cfg post fuel a b ls,
  ~ In GeminiCall (fst (completion_loop cfg post fuel a b ls)).
Proof.
  induction fuel as [|fuel IH]; intros a b ls; [simpl; tauto|].
  rewrite OpenRouterFacts.completion_loop_S.
  destruct (continue_after (retries cfg) a (post a)).
  - specialize (IH (a + 1)%Z (b * 2) (next_status (post a) ls)).
    destruct (completion_loop cfg post fuel (a + 1) (b * 2) (next_status (post a) ls))
      as [ev r]; simpl in *.
    intros [H|[H|H]]; [discriminate|discriminate|contradiction].
  - simpl; intros [H|H]; [discriminate|contradiction].
Qed.

Lemma invoke_provider_openrouter : forall st env cfg resp,
  build_openrouter_config st = Some cfg ->
  snd (chat_completion cfg (openrouter_post env)) = inr resp ->
  invoke_provider st env =
    (fst (chat_completion cfg (openrouter_post env)),
     ret (resp_text resp, "openrouter:" ++ py_str env (resp_model resp),
          PDict [("model", resp_model resp); ("usage", resp_usage resp);
                 ("attempts", PInt (resp_attempts resp));
                 ("headers", openrouter_headers env (resp_attempts resp))])).
Proof.
  intros st env cfg resp Hc Hr; unfold invoke_provider; rewrite Hc.
  destruct (chat_completion cfg (openrouter_post env)) as [ev r]; simpl in *.
  subst r; reflexivity.
Qed.

(** X5: [_build_openrouter_config] gives no configuration exactly when the
    OpenRouter key is unset or empty; otherwise the configuration carries
    that key, the first configured model (["openrouter/auto"] when none
    is), the configured base URL (["https://openrouter.ai/api/v1"] when it
    is empty), the temperature and token limit of the settings, and the
    client's defaults of three retries and a 0.75 s backoff. *)
Theorem build_openrouter_config_spec : forall st,
  (build_openrouter_config st = None <-> opt_truthy (openrouter_api_key st) = false) /\
  (forall cfg, build_openrouter_config st = Some cfg ->
     openrouter_api_key st = Some (api_key cfg) /\
     model cfg = hd "openrouter/auto" (openrouter_models st) /\
     base_url cfg = (if String.eqb (openrouter_base_url st) ""
                     then "https://openrouter.ai/api/v1" else openrouter_base_url st) /\
     temperature cfg = ai_temperature st /\ max_tokens cfg = ai_max_tokens st /\
     retries cfg = 3%Z /\ backoff_factor cfg = 3 # 4).
Proof.
  intro st; unfold build_openrouter_config, opt_truthy.
  destruct (openrouter_api_key st) as [key|]; [|split; [tauto|discriminate]].
  destruct (String.eqb key "") eqn:Ek; simpl.
  - split; [tauto|discriminate].
  - split; [split; discriminate|].
    intros cfg H; injection H as <-; simpl.
    repeat split; try reflexivity.
    destruct (openrouter_models st); reflexivity.
Qed.

(** X6: when OpenRouter answers, [generate] makes no Gemini call: its
    events are those of [chat_completion]; and when the reply text (fences
    removed) parses as a JSON object, the response is labelled
    ["openrouter:<model>"], keeps the reply as [raw_text] and carries the
    model, usage, attempt count and the headers of the answer to the last
    attempt as [meta]. *)
Theorem generate_openrouter_success :
  forall st env query fp intent verbose expl cfg resp,
  offline st = false -> build_openrouter_config st = Some cfg ->
  snd (chat_completion cfg (openrouter_post env)) = inr resp ->
  fst (generate st env query fp intent verbose expl) =
    fst (chat_completion cfg (openrouter_post env)) /\
  ~ In GeminiCall (fst (generate st env query fp intent verbose expl)) /\
  (forall data, json_loads env (clean_text (resp_text resp)) = Some (PDict data) ->
     provider (snd (generate st env query fp intent verbose expl)) =
       "openrouter:" ++ py_str env (resp_model resp) /\
     raw_text (snd (generate st env query fp intent verbose expl)) = resp_text resp /\
     meta (snd (generate st env query fp intent verbose expl)) =
       PDict [("model", resp_model resp); ("usage", resp_usage resp);
              ("attempts", PInt (resp_attempts resp));
              ("headers", openrouter_headers env (resp_attempts resp))]).
Proof.
  intros st env query fp intent verbose expl cfg resp Hoff Hc Hr.
  unfold generate; rewrite Hoff, (invoke_provider_openrouter st env cfg resp Hc Hr).
  assert (Hev : forall x : res ForecasterResponse,
             fst (match x with
                  | inl e => (fst (chat_completion cfg (openrouter_post env)),
                              fallback_response env fp expl ("fallback:" ++ exn_class e)
                                (compose_prompt_summary query intent verbose expl)
                                (Some (exn_msg e)) (PDict [("error", PStr (exn_msg e))]))
                  | inr r => (fst (chat_completion cfg (openrouter_post env)), r)
                  end) = fst (chat_completion cfg (openrouter_post env)))
    by (intros [e|r]; reflexivity).
  simpl; rewrite Hev; split; [reflexivity|]; split.
  - unfold chat_completion; apply completion_loop_no_gemini.
  - intros data Hj; unfold parse_response; rewrite Hj; simpl.
    repeat split; reflexivity.
Qed.

Lemma generate_openrouter_success_witness :
  offline settings_429 = false /\
  build_openrouter_config settings_429 =
    Some (default_config "key" "https://openrouter.ai/api/v1" "openrouter/auto" 0 1000) /\
  snd (chat_completion (default_config "key" "https://openrouter.ai/api/v1" "openrouter/auto" 0 1000)
         (openrouter_post env_sections_str)) =
    inr (mkResponse "hi" (PStr "openrouter/auto") sample_ok_body PNone 1) /\
  fst (generate settings_429 env_sections_str "q" [] "forecast" false false) =
    fst (chat_completion (default_config "key" "https://openrouter.ai/api/v1" "openrouter/auto" 0 1000)
           (openrouter_post env_sections_str)) /\
  ~ In GeminiCall (fst (generate settings_429 env_sections_str "q" [] "forecast" false false)) /\
  (forall data, json_loads env_sections_str
                  (clean_text (resp_text (mkResponse "hi" (PStr "openrouter/auto") sample_ok_body PNone 1)))
                = Some (PDict data) ->
     provider (snd (generate settings_429 env_sections_str "q" [] "forecast" false false)) =
       "openrouter:" ++ py_str env_sections_str
                         (resp_model (mkResponse "hi" (PStr "openrouter/auto") sample_ok_body PNone 1)) /\
     raw_text (snd (generate settings_429 env_sections_str "q" [] "forecast" false false)) =
       resp_text (mkResponse "hi" (PStr "openrouter/auto") sample_ok_body PNone 1) /\
     meta (snd (generate settings_429 env_sections_str "q" [] "forecast" false false)) =
       PDict [("model", PStr "openrouter/auto"); ("usage", PNone); ("attempts", PInt 1);
              ("headers", PDict [])]).
Proof.
  split; [reflexivity|]; split; [reflexivity|]; split; [vm_compute; reflexivity|].
  apply (generate_openrouter_success settings_429 env_sections_str "q" [] "forecast" false false
           (default_config "key" "https://openrouter.ai/api/v1" "openrouter/auto" 0 1000)
           (mkResponse "hi" (PStr "openrouter/auto") sample_ok_body PNone 1));
    [reflexivity|reflexivity|vm_compute; reflexivity].
Defined.

Definition explain_summary : string :=
  "Explain mode: describing which Feature Pack inputs were available and how they would influence a forecast.".

(** X7: when the provider answers but its text (fences removed) is not
    JSON, [generate] returns the fallback labelled
    ["fallback:unparseable"] built as if no Feature Pack had been given:
    the standard (non-explain) fallback sections, an empty
    [used_feature_fields], the provider's text as [raw_text] when it is
    not empty, and the provider's [meta]. *)
Theorem generate_unparseable_reply :
  forall st env query fp intent verbose expl ev raw prov m,
  offline st = false -> invoke_provider st env = (ev, inr (raw, prov, m)) ->
  json_loads env (clean_text raw) = None ->
  fst (generate st env query fp intent verbose expl) = ev /\
  provider (snd (generate st env query fp intent verbose expl)) = "fallback:unparseable" /\
  sections (snd (generate st env query fp intent verbose expl)) = fallback_sections [] false /\
  used_feature_fields (snd (generate st env query fp intent verbose expl)) = PList [] /\
  (raw <> "" -> raw_text (snd (generate st env query fp intent verbose expl)) = raw) /\
  meta (snd (generate st env query fp intent verbose expl)) = m.
Proof.
  intros st env query fp intent verbose expl ev raw prov m Hoff Hinv Hj.
  unfold generate; rewrite Hoff, Hinv; simpl.
  unfold parse_response; rewrite Hj; simpl.
  repeat split; try reflexivity.
  intro Hne; unfold opt_truthy.
  destruct (String.eqb raw "") eqn:E; [apply String.eqb_eq in E; contradiction|reflexivity].
Qed.

Lemma generate_unparseable_reply_witness :
  exists ev raw prov m,
  offline settings_429 = false /\ invoke_provider settings_429 env_unparseable = (ev, inr (raw, prov, m)) /\
  json_loads env_unparseable (clean_text raw) = None /\
  fst (generate settings_429 env_unparseable "q" [] "forecast" false false) = ev /\
  provider (snd (generate settings_429 env_unparseable "q" [] "forecast" false false))
    = "fallback:unparseable" /\
  sections (snd (generate settings_429 env_unparseable "q" [] "forecast" false false))
    = fallback_sections [] false /\
  used_feature_fields (snd (generate settings_429 env_unparseable "q" [] "forecast" false false))
    = PList [] /\
  (raw <> "" -> raw_text (snd (generate settings_429 env_unparseable "q" [] "forecast" false false))
                = raw) /\
  meta (snd (generate settings_429 env_unparseable "q" [] "forecast" false false)) = m.
Proof.
  destruct (invoke_provider settings_429 env_unparseable) as [ev [e|[[raw prov] m]]] eqn:E;
    [vm_compute in E; discriminate E|].
  exists ev, raw, prov, m; split; [reflexivity|]; split; [reflexivity|]; split; [reflexivity|].
  exact (generate_unparseable_reply settings_429 env_unparseable "q" [] "forecast" false false
           ev raw prov m eq_refl E eq_refl).
Defined.

(** X8: when the provider's text parses as JSON that is not an object
    (a list, a string, a number, ...), [_parse_response] calls [.get] on
    it and raises [AttributeError], which [generate] turns into the
    fallback labelled ["fallback:AttributeError"], listing the Feature
    Pack's fields. *)
Theorem generate_reply_not_object :
  forall st env query fp intent verbose expl ev raw prov m v,
  offline st = false -> invoke_provider st env = (ev, inr (raw, prov, m)) ->
  json_loads env (clean_text raw) = Some v -> is_dict v = false ->
  fst (generate st env query fp intent verbose expl) = ev /\
  provider (snd (generate st env query fp intent verbose expl)) = "fallback:AttributeError" /\
  used_feature_fields (snd (generate st env query fp intent verbose expl)) =
    PList (map PStr (enumerate_feature_fields fp)) /\
  bottom_line (snd (generate st env query fp intent verbose expl)) = PStr FALLBACK_BOTTOM_LINE.
Proof.
  intros st env query fp intent verbose expl ev raw prov m v Hoff Hinv Hj Hd.
  unfold generate; rewrite Hoff, Hinv; simpl.
  unfold parse_response; rewrite Hj.
  destruct v; try discriminate Hd; simpl; repeat split; reflexivity.
Qed.

Lemma generate_reply_not_object_witness :
  exists ev raw prov m,
  offline settings_429 = false /\ invoke_provider settings_429 env_json_list = (ev, inr (raw, prov, m)) /\
  json_loads env_json_list (clean_text raw) = Some (PList []) /\ is_dict (PList []) = false /\
  fst (generate settings_429 env_json_list "q" [("units", unit_pack_imperial)] "forecast" false false)
    = ev /\
  provider (snd (generate settings_429 env_json_list "q" [("units", unit_pack_imperial)]
                   "forecast" false false)) = "fallback:AttributeError" /\
  used_feature_fields (snd (generate settings_429 env_json_list "q" [("units", unit_pack_imperial)]
                              "forecast" false false)) =
    PList (map PStr (enumerate_feature_fields [("units", unit_pack_imperial)])) /\
  bottom_line (snd (generate settings_429 env_json_list "q" [("units", unit_pack_imperial)]
                      "forecast" false false)) = PStr FALLBACK_BOTTOM_LINE.
Proof.
  destruct (invoke_provider settings_429 env_json_list) as [ev [e|[[raw prov] m]]] eqn:E;
    [vm_compute in E; discriminate E|].
  exists ev, raw, prov, m; split; [reflexivity|]; split; [reflexivity|]; split; [reflexivity|].
  split; [reflexivity|].
  exact (generate_reply_not_object settings_429 env_json_list "q" [("units", unit_pack_imperial)]
           "forecast" false false ev raw prov m (PList []) eq_refl E eq_refl eq_refl).
Defined.

(** X9: in offline mode [explain] calls no provider and reports mode
    ["offline"], the explain-mode fallback summary as its text, the
    provider ["offline"] and the Feature Pack's fields in its [meta]. *)
Theorem explain_offline : forall st env question fp command,
  offline st = true ->
  fst (explain st env question fp command) = [] /\
  exists x, snd (explain st env question fp command) = inr x /\
    mode x = "offline" /\ text x = PStr explain_summary /\
    dict_get (explain_meta x) "provider" = PStr "offline" /\
    dict_get (explain_meta x) "used_feature_fields" =
      PList (map PStr (enumerate_feature_fields fp)).
Proof.
  intros st env question fp command Hoff.
  unfold explain, generate; rewrite Hoff; simpl.
  split; [reflexivity|].
  eexists; split; [reflexivity|]; repeat split; reflexivity.
Qed.

Lemma explain_offline_witness :
  offline settings_offline_unconfigured = true /\
  fst (explain settings_offline_unconfigured env_429 "why?" [("units", unit_pack_imperial)]
         "forecast") = [] /\
  exists x, snd (explain settings_offline_unconfigured env_429 "why?"
                   [("units", unit_pack_imperial)] "forecast") = inr x /\
    mode x = "offline" /\ text x = PStr explain_summary /\
    dict_get (explain_meta x) "provider" = PStr "offline" /\
    dict_get (explain_meta x) "used_feature_fields" =
      PList (map PStr (enumerate_feature_fields [("units", unit_pack_imperial)])).
Proof.
  split; [reflexivity|].
  apply explain_offline; reflexivity.
Defined.

(** X10: when the provider chain raises, [explain] reports mode
    ["fallback"], the explain-mode fallback summary as its text, the
    provider ["fallback:<exception class>"], and the exception's message
    under ["error"] in its [meta]. *)
Theorem explain_provider_failure : forall st env question fp command e,
  offline st = false -> snd (invoke_provider st env) = inl e ->
  exists x, snd (explain st env question fp command) = inr x /\
    mode x = "fallback" /\ text x = PStr explain_summary /\
    dict_get (explain_meta x) "provider" = PStr ("fallback:" ++ exn_class e) /\
    dict_get (explain_meta x) "error" = PStr (exn_msg e).
Proof.
  intros st env question fp command e Hoff Hinv.
  unfold explain, generate; rewrite Hoff.
  destruct (invoke_provider st env) as [ev r]; simpl in Hinv; subst r; simpl.
  eexists; split; [reflexivity|]; repeat split; reflexivity.
Qed.

Lemma explain_provider_failure_witness :
  exists e, offline settings_429 = false /\ snd (invoke_provider settings_429 env_429) = inl e /\
  exists x, snd (explain settings_429 env_429 "why?" [] "forecast") = inr x /\
    mode x = "fallback" /\ text x = PStr explain_summary /\
    dict_get (explain_meta x) "provider" = PStr ("fallback:" ++ exn_class e) /\
    dict_get (explain_meta x) "error" = PStr (exn_msg e).
Proof.
  destruct (snd (invoke_provider settings_429 env_429)) as [e|y] eqn:E;
    [|vm_compute in E; discriminate E].
  exists e; split; [reflexivity|]; split; [reflexivity|].
  exact (explain_provider_failure settings_429 env_429 "why?" [] "forecast" e eq_refl E).
Defined.

(** X11: [explain] is not total: when the provider's reply is a JSON
    object whose ["sections"] is truthy but not an object (say a
    non-empty string), [summary_text] calls [.get] on it and [explain]
    raises [AttributeError] to its caller. *)
Theorem explain_sections_not_object : forall st env question fp command ev raw prov m data,
  offline st = false -> invoke_provider st env = (ev, inr (raw, prov, m)) ->
  json_loads env (clean_text raw) = Some (PDict data) ->
  truthy (dict_get data "sections") = true -> is_dict (dict_get data "sections") = false ->
  exists e, snd (explain st env question fp command) = inl e /\
    exn_class e = "AttributeError".
Proof.
  intros st env question fp command ev raw prov m data Hoff Hinv Hj Ht Hd.
  unfold explain, generate; rewrite Hoff, Hinv; simpl.
  unfold parse_response; rewrite Hj; simpl.
  unfold py_or at 1; rewrite Ht.
  destruct (dict_get data "sections"); try discriminate Hd;
    simpl; eexists; split; reflexivity.
Qed.

Lemma explain_sections_not_object_witness :
  exists ev raw prov m,
  offline settings_429 = false /\ invoke_provider settings_429 env_sections_str = (ev, inr (raw, prov, m)) /\
  json_loads env_sections_str (clean_text raw) = Some (PDict [("sections", PStr "text")]) /\
  truthy (dict_get [("sections", PStr "text")] "sections") = true /\
  is_dict (dict_get [("sections", PStr "text")] "sections") = false /\
  exists e, snd (explain settings_429 env_sections_str "why?" [] "forecast") = inl e /\
    exn_class e = "AttributeError".
Proof.
  destruct (invoke_provider settings_429 env_sections_str) as [ev [e|[[raw prov] m]]] eqn:E;
    [vm_compute in E; discriminate E|].
  exists ev, raw, prov, m; split; [reflexivity|]; split; [reflexivity|].
  split; [reflexivity|]; split; [reflexivity|]; split; [reflexivity|].
  exact (explain_sections_not_object settings_429 env_sections_str "why?" [] "forecast"
           ev raw prov m [("sections", PStr "text")] eq_refl E eq_refl eq_refl eq_refl).
Defined.

End ForecasterExtraFacts.

(* ------------------------------------------------------------------ *)
(** ** Cleaning fenced replies *)

Module TextFacts.

Import Forecaster.

Lemma splitlines_aux_no_breaks : forall cs rest cur,
  Forall (fun c => Str.is_line_break c = false) cs ->
  Str.splitlines_aux (cs ++ rest) cur = Str.splitlines_aux rest (rev cs ++ cur).
Proof.
  induction cs as [|c cs IH]; intros rest cur H; [reflexivity|].
  inversion H as [|? ? Hc Hcs]; subst.
  simpl; rewrite Hc, IH by exact Hcs; rewrite <- app_assoc; reflexivity.
Qed.

Lemma splitlines_aux_lf : forall rest cur,
  Str.splitlines_aux (ascii_of_nat 10 :: rest) cur =
  string_of_list_ascii (rev cur) :: Str.splitlines_aux rest [].
Proof. intros [|c rest] cur; reflexivity. Qed.

Lemma rstrip_last_nonspace : forall l c,
  Str.is_space c = false ->
  Str.rstrip (string_of_list_ascii (l ++ [c])) = string_of_list_ascii (l ++ [c]).
Proof.
  intros l c Hc; unfold Str.rstrip.
  rewrite list_ascii_of_string_of_list_ascii, rev_unit; simpl; rewrite Hc; simpl.
  rewrite list_ascii_of_string_of_list_ascii, rev_involutive; reflexivity.
Qed.

Lemma startswith_fence : forall l,
  Str.startswith (string_of_list_ascii ("`"%char :: "`"%char :: "`"%char :: l)) "```" = true.
Proof. intro l; simpl; destruct (string_of_list_ascii l); reflexivity. Qed.

(** X12: a reply wrapped in a Markdown code fence, an opening line
    ["```"] followed by any tag (such as [json]), the body, and a closing
    line ["```"], is cleaned back to the body, provided the tag and the
    body hold no line break. *)
Theorem clean_text_fenced : forall tag body,
  Str.no_line_breaks tag -> Str.no_line_breaks body ->
  clean_text ("```" ++ tag ++ String (ascii_of_nat 10) "" ++ body ++
              String (ascii_of_nat 10) "" ++ "```") = body.
Proof.
  intros tag body Ht Hb.
  assert (Hs : "```" ++ tag ++ String (ascii_of_nat 10) "" ++ body ++
              String (ascii_of_nat 10) "" ++ "```" =
          string_of_list_ascii
            (app ("`"%char :: "`"%char :: "`"%char :: app (list_ascii_of_string tag)
                    (ascii_of_nat 10 :: app (list_ascii_of_string body)
                       [ascii_of_nat 10; "`"%char; "`"%char])) ["`"%char])).
  { rewrite <- (string_of_list_ascii_of_string ("```" ++ _)); f_equal.
    rewrite !ClientFacts.list_ascii_of_string_app; simpl.
    repeat (rewrite <- app_assoc; simpl); reflexivity. }
  unfold clean_text, Str.strip; rewrite Hs.
  set (L := "`"%char :: "`"%char :: "`"%char :: app (list_ascii_of_string tag)
                    (ascii_of_nat 10 :: app (list_ascii_of_string body)
                       [ascii_of_nat 10; "`"%char; "`"%char])).
  assert (Hl : Str.lstrip (string_of_list_ascii (app L ["`"%char])) =
               string_of_list_ascii (app L ["`"%char])) by reflexivity.
  rewrite Hl, rstrip_last_nonspace by reflexivity.
  assert (Hp : Str.startswith (string_of_list_ascii (app L ["`"%char])) "```" = true).
  { unfold Str.startswith; subst L; simpl;
    match goal with |- prefix "" ?s = true => destruct s; reflexivity end. }
  rewrite Hp; unfold strip_fence, Str.splitlines.
  rewrite list_ascii_of_string_of_list_ascii; subst L.
  simpl.
  assert (Hsp : Str.splitlines_aux
             (app (app (list_ascii_of_string tag) (ascii_of_nat 10 :: app (list_ascii_of_string body)
                  [ascii_of_nat 10; "`"%char; "`"%char])) ["`"%char])
             ["`"%char; "`"%char; "`"%char] =
           [string_of_list_ascii ("`"%char :: "`"%char :: "`"%char :: list_ascii_of_string tag);
            body; "```"]).
  { rewrite <- app_assoc, splitlines_aux_no_breaks by exact Ht.
    rewrite <- app_comm_cons, splitlines_aux_lf.
    rewrite <- app_assoc, splitlines_aux_no_breaks by exact Hb.
    simpl app; rewrite splitlines_aux_lf.
    rewrite !app_nil_r, !rev_app_distr, !rev_involutive, string_of_list_ascii_of_string.
    reflexivity. }
  rewrite Hsp, startswith_fence; reflexivity.
Qed.

Lemma clean_text_fenced_witness :
  Str.no_line_breaks "json" /\ Str.no_line_breaks "[]" /\
  clean_text ("```" ++ "json" ++ String (ascii_of_nat 10) "" ++ "[]" ++
              String (ascii_of_nat 10) "" ++ "```") = "[]".
Proof.
  split; [repeat constructor|]; split; [repeat constructor|].
  apply clean_text_fenced; repeat constructor.
Defined.

End TextFacts.

(* ------------------------------------------------------------------ *)
(** ** Risk queries: order and duplicates of the hazards do not matter *)

Module RiskQueryFacts.

Import Forecaster Orchestrator SortFacts.

Lemma ascii_compare_refl : forall x, Ascii.compare x x = Eq.
Proof. intro x; unfold Ascii.compare; apply N.compare_refl. Qed.

Lemma ascii_compare_lt_trans : forall x y z,
  Ascii.compare x y = Lt -> Ascii.compare y z = Lt -> Ascii.compare x z = Lt.
Proof. intros x y z; unfold Ascii.compare; rewrite !N.compare_lt_iff; lia. Qed.

Lemma string_compare_lt_trans : forall a b c,
  String.compare a b = Lt -> String.compare b c = Lt -> String.compare a c = Lt.
Proof.
  induction a as [|x a IH]; intros [|y b] [|z c]; simpl; intros H1 H2;
    try discriminate; try reflexivity.
  destruct (Ascii.compare x y) eqn:Exy; try discriminate;
    destruct (Ascii.compare y z) eqn:Eyz; try discriminate.
  - apply Ascii.compare_eq_iff in Exy; apply Ascii.compare_eq_iff in Eyz; subst.
    rewrite ascii_compare_refl; exact (IH b c H1 H2).
  - apply Ascii.compare_eq_iff in Exy; subst; rewrite Eyz; reflexivity.
  - apply Ascii.compare_eq_iff in Eyz; subst; rewrite Exy; reflexivity.
  - rewrite (ascii_compare_lt_trans x y z Exy Eyz); reflexivity.
Qed.

Lemma str_le_trans : forall a b c, str_le a b -> str_le b c -> str_le a c.
Proof.
  unfold str_le, String.leb; intros a b c.
  destruct (String.compare a b) eqn:E1; try discriminate;
    destruct (String.compare b c) eqn:E2; try discriminate; intros _ _.
  - apply String.compare_eq_iff in E1; subst; rewrite E2; reflexivity.
  - apply String.compare_eq_iff in E1; subst; rewrite E2; reflexivity.
  - apply String.compare_eq_iff in E2; subst; rewrite E1; reflexivity.
  - rewrite (string_compare_lt_trans a b c E1 E2); reflexivity.
Qed.

Lemma sorted_strong : forall l, Sorted str_le l -> StronglySorted str_le l.
Proof. apply Sorted_StronglySorted; exact str_le_trans. Qed.

Lemma sorted_unique : forall l1 l2,
  StronglySorted str_le l1 -> StronglySorted str_le l2 -> NoDup l1 -> NoDup l2 ->
  (forall x, In x l1 <-> In x l2) -> l1 = l2.
Proof.
  induction l1 as [|x l1 IH]; intros [|y l2] S1 S2 N1 N2 Hin.
  - reflexivity.
  - exfalso; apply (proj2 (Hin y)); left; reflexivity.
  - exfalso; apply (proj1 (Hin x)); left; reflexivity.
  - apply StronglySorted_inv in S1; destruct S1 as [S1 F1].
    apply StronglySorted_inv in S2; destruct S2 as [S2 F2].
    rewrite Forall_forall in F1, F2.
    inversion N1 as [|? ? Nx N1']; subst; inversion N2 as [|? ? Ny N2']; subst.
    assert (Exy : x = y).
    { destruct (proj1 (Hin x) (or_introl eq_refl)) as [E|Hx]; [symmetry; exact E|].
      destruct (proj2 (Hin y) (or_introl eq_refl)) as [E|Hy]; [exact E|].
      apply String.leb_antisym; [apply F1; exact Hy | apply F2; exact Hx]. }
    subst y; f_equal; apply IH; try assumption.
    intro z; split; intro Hz.
    + destruct (proj1 (Hin z) (or_intror Hz)) as [E|H]; [subst; contradiction|exact H].
    + destruct (proj2 (Hin z) (or_intror Hz)) as [E|H]; [subst; contradiction|exact H].
Qed.

Lemma sorted_set_props : forall l,
  StronglySorted str_le (sorted_set l) /\ NoDup (sorted_set l) /\
  (forall x, In x (sorted_set l) <-> In x l).
Proof.
  intro l; unfold sorted_set; split; [apply sorted_strong, sort_strings_sorted|]; split.
  - eapply Permutation_NoDup; [symmetry; apply sort_strings_perm|apply NoDup_nodup].
  - intro x; split; intro H.
    + apply (nodup_In string_dec); eapply Permutation_in; [apply sort_strings_perm|exact H].
    + eapply Permutation_in; [symmetry; apply sort_strings_perm|].
      apply nodup_In; exact H.
Qed.

(** X13: [_compose_risk_query] depends only on the set of hazards given:
    two hazard lists with the same members, in any order and with any
    repetitions, give the same query text. *)
Theorem compose_risk_query_set : forall place hs1 hs2,
  (forall x, In x hs1 <-> In x hs2) ->
  compose_risk_query place (Some hs1) = compose_risk_query place (Some hs2).
Proof.
  intros place [|h1 t1] [|h2 t2] Hin; unfold compose_risk_query; cbv beta iota.
  - reflexivity.
  - exfalso; apply (proj2 (Hin h2)); left; reflexivity.
  - exfalso; apply (proj1 (Hin h1)); left; reflexivity.
  - destruct (sorted_set_props (h1 :: t1)) as [S1 [N1 I1]].
    destruct (sorted_set_props (h2 :: t2)) as [S2 [N2 I2]].
    rewrite (sorted_unique (sorted_set (h1 :: t1)) (sorted_set (h2 :: t2)) S1 S2 N1 N2);
      [reflexivity|].
    intro x; rewrite I1, I2; apply Hin.
Qed.

Lemma compose_risk_query_set_witness :
  (forall x, In x ["wind"; "hail"; "wind"] <-> In x ["hail"; "wind"]) /\
  compose_risk_query "Denver" (Some ["wind"; "hail"; "wind"]) =
    compose_risk_query "Denver" (Some ["hail"; "wind"]).
Proof.
  assert (H : forall x, In x ["wind"; "hail"; "wind"] <-> In x ["hail"; "wind"])
    by (intro x; simpl; tauto).
  split; [exact H|].
  exact (compose_risk_query_set "Denver" _ _ H).
Defined.

End RiskQueryFacts.

(* ------------------------------------------------------------------ *)
(** ** Forecast windows *)

Module WindowFacts.

Import Orchestrator Samples.

(** The instant [_build_window] starts from: the parsed [when] text when
    there is one and it parses, the current time otherwise. *)
Definition window_start (w : World) (when_text : option string) : Z :=
  match when_text with
  | Some t => if String.eqb t "" then now_utc w
              else match parse_when w t with Some p => p | None => now_utc w end
  | None => now_utc w
  end.

(** Whether [parsed.astimezone(UTC)] passes (it is only run on a parsed
    [when] text). *)
Definition start_converts (w : World) (when_text : option string) : bool :=
  match when_text with
  | Some t => if String.eqb t "" then true
              else match parse_when w t with Some p => in_datetime_range p | None => true end
  | None => true
  end.

Lemma build_window_eq : forall w pi wt h,
  build_window w pi wt h =
  tz_name <- py_get (py_or pi (PDict [])) "tz" ;;
  if negb (start_converts w wt) then raise overflow_error else
  let s := window_start w wt in
  let e := (s + parse_horizon h * 3600)%Z in
  if negb (in_datetime_range e) then raise overflow_error else
  let base := [("start_iso", PStr (isoformat w s)); ("end_iso", PStr (isoformat w e));
               ("horizon", PStr (Str.string_of_Z (parse_horizon h) ++ "h"))] in
  ret (PDict (if truthy tz_name then
                match tz_name with
                | PStr tz => match zone w tz with
                             | Some local =>
                                 match local s, local e with
                                 | Some a, Some b =>
                                     (base ++ [("start_local", PStr a);
                                               ("end_local", PStr b);
                                               ("timezone", PStr tz)])%list
                                 | _, _ => base
                                 end
                             | None => base end
                | _ => base end
              else base)).
Proof.
  intros; unfold build_window, window_start, start_converts.
  destruct (py_get (py_or pi (PDict [])) "tz") as [e|tz]; [reflexivity|].
  cbn [bind].
  destruct wt as [t|]; [destruct (String.eqb t ""); [|destruct (parse_when w t) as [p|];
    [destruct (in_datetime_range p)|]]|]; reflexivity.
Qed.

Lemma tz_lookup_str : forall pi tz,
  py_get (py_or pi (PDict [])) "tz" = inr (PStr tz) ->
  exists kvs, pi = PDict kvs /\ dict_get kvs "tz" = PStr tz.
Proof.
  intros pi tz H; unfold py_or in H.
  destruct (truthy pi); [|discriminate H].
  destruct pi as [| | | | | |kvs]; try discriminate H.
  injection H as H; exists kvs; split; [reflexivity|exact H].
Qed.

Lemma tz_lookup_dict : forall kvs tz,
  dict_get kvs "tz" = PStr tz -> py_get (py_or (PDict kvs) (PDict [])) "tz" = inr (PStr tz).
Proof. intros [|kv kvs] tz H; [discriminate H|simpl in *; rewrite H; reflexivity]. Qed.

Lemma parse_horizon_values : forall h, In (parse_horizon h) [6; 12; 24; 72]%Z.
Proof.
  intro h; unfold parse_horizon.
  repeat match goal with |- context [if ?c then _ else _] => destruct c end;
    simpl; tauto.
Qed.



(** X14: a window [_build_window] returns is a dict whose first three
    entries are [start_iso], [end_iso] exactly [H] hours later, and
    [horizon] = ["<H>h"], where [H] is 6, 12, 24 or 72; the start is the
    current time unless the [when] text parses to an instant in
    [datetime]'s range, and the end lies in that range; the local-time
    entries [start_local], [end_local] and [timezone] follow exactly when
    the place is a dict with a non-empty [tz] that [ZoneInfo] accepts and
    both instants convert to that zone, and nothing follows otherwise. *)
Theorem build_window_shape : forall w pi wt h v,
  build_window w pi wt h = inr v ->
  exists s window, v = PDict window /\
    (s = now_utc w \/
     exists t, wt = Some t /\ parse_when w t = Some s /\ in_datetime_range s = true) /\
    in_datetime_range (s + parse_horizon h * 3600) = true /\
    In (parse_horizon h) [6; 12; 24; 72]%Z /\
    firstn 3 window =
      [("start_iso", PStr (isoformat w s));
       ("end_iso", PStr (isoformat w (s + parse_horizon h * 3600)%Z));
       ("horizon", PStr (Str.string_of_Z (parse_horizon h) ++ "h"))] /\
    ((exists kvs tz local a b, pi = PDict kvs /\ dict_get kvs "tz" = PStr tz /\ tz <> "" /\
        zone w tz = Some local /\ local s = Some a /\
        local (s + parse_horizon h * 3600)%Z = Some b /\
        skipn 3 window = [("start_local", PStr a); ("end_local", PStr b);
                          ("timezone", PStr tz)]) \/
     (skipn 3 window = [] /\
      forall kvs tz local, pi = PDict kvs -> dict_get kvs "tz" = PStr tz -> tz <> "" ->
        zone w tz = Some local ->
        local s = None \/ local (s + parse_horizon h * 3600)%Z = None)).
Proof.
  intros w pi wt h v H; rewrite build_window_eq in H.
  destruct (py_get (py_or pi (PDict [])) "tz") as [err|tz] eqn:Etz; [discriminate H|].
  cbn [bind] in H.
  destruct (start_converts w wt) eqn:Sc; [|discriminate H].
  destruct (in_datetime_range (window_start w wt + parse_horizon h * 3600)) eqn:Re;
    [|discriminate H].
  cbv zeta beta iota in H; cbn [negb] in H; injection H as <-.
  exists (window_start w wt); eexists; split; [reflexivity|].
  split.
  { unfold window_start; unfold start_converts in Sc.
    destruct wt as [t|]; [|left; reflexivity].
    destruct (String.eqb t ""); [left; reflexivity|].
    destruct (parse_when w t) eqn:Ep; [right; exists t; repeat split; assumption|].
    left; reflexivity. }
  split; [exact Re|].
  split; [apply parse_horizon_values|].
  assert (Hsame : forall kvs tz', pi = PDict kvs -> dict_get kvs "tz" = PStr tz' ->
                    tz = PStr tz').
  { intros kvs tz' -> Hk; rewrite (tz_lookup_dict kvs tz' Hk) in Etz.
    injection Etz as <-; reflexivity. }
  destruct (truthy tz) eqn:Tz.
  - destruct tz as [| | | |tzs| |].
    1-4,6-7: (split; [reflexivity|]; right; split; [reflexivity|];
      intros kvs' tz' local' Hp Hk; specialize (Hsame kvs' tz' Hp Hk); discriminate Hsame).
    destruct (zone w tzs) as [local|] eqn:Ez.
    + destruct (local (window_start w wt)) as [a|] eqn:La;
        [destruct (local (window_start w wt + parse_horizon h * 3600)%Z) as [b|] eqn:Lb|].
      * split; [reflexivity|]; left.
        destruct (tz_lookup_str pi tzs Etz) as [kvs [Hp Hk]].
        exists kvs, tzs, local, a, b; repeat split; try assumption.
        simpl in Tz; intro E; subst; discriminate Tz.
      * split; [reflexivity|]; right; split; [reflexivity|].
        intros kvs tz' local' Hp Hk Hne Hz; specialize (Hsame kvs tz' Hp Hk).
        injection Hsame as <-; rewrite Ez in Hz; injection Hz as <-; right; exact Lb.
      * split; [reflexivity|]; right; split; [reflexivity|].
        intros kvs tz' local' Hp Hk Hne Hz; specialize (Hsame kvs tz' Hp Hk).
        injection Hsame as <-; rewrite Ez in Hz; injection Hz as <-; left; exact La.
    + split; [reflexivity|]; right; split; [reflexivity|].
      intros kvs tz' local' Hp Hk Hne Hz; specialize (Hsame kvs tz' Hp Hk).
      injection Hsame as <-; rewrite Ez in Hz; discriminate Hz.
  - split; [reflexivity|]; right; split; [reflexivity|].
    intros kvs tz' local' Hp Hk Hne; specialize (Hsame kvs tz' Hp Hk); subst tz.
    simpl in Tz; apply String.eqb_neq in Hne; rewrite Hne in Tz; discriminate Tz.
Qed.




Lemma build_window_shape_witness :
  exists v, build_window world_resolved boulder None "24h" = inr v /\
  exists s window, v = PDict window /\
    (s = now_utc world_resolved \/
     exists t, (None : option string) = Some t /\ parse_when world_resolved t = Some s /\
       in_datetime_range s = true) /\
    in_datetime_range (s + parse_horizon "24h" * 3600) = true /\
    In (parse_horizon "24h") [6; 12; 24; 72]%Z /\
    firstn 3 window =
      [("start_iso", PStr (isoformat world_resolved s));
       ("end_iso", PStr (isoformat world_resolved (s + parse_horizon "24h" * 3600)%Z));
       ("horizon", PStr (Str.string_of_Z (parse_horizon "24h") ++ "h"))] /\
    ((exists kvs tz local a b, boulder = PDict kvs /\ dict_get kvs "tz" = PStr tz /\
        tz <> "" /\ zone world_resolved tz = Some local /\ local s = Some a /\
        local (s + parse_horizon "24h" * 3600)%Z = Some b /\
        skipn 3 window = [("start_local", PStr a); ("end_local", PStr b);
                          ("timezone", PStr tz)]) \/
     (skipn 3 window = [] /\
      forall kvs tz local, boulder = PDict kvs -> dict_get kvs "tz" = PStr tz -> tz <> "" ->
        zone world_resolved tz = Some local ->
        local s = None \/ local (s + parse_horizon "24h" * 3600)%Z = None)).
Proof.
  destruct (build_window world_resolved boulder None "24h") as [e|v] eqn:E;
    [vm_compute in E; discriminate E|].
  exists v; split; [reflexivity|].
  exact (build_window_shape world_resolved boulder None "24h" v E).
Defined.

End WindowFacts.

(* ------------------------------------------------------------------ *)
(** ** Fetches without [--trust-tools] *)

Module TrustFacts.

Import Fetch Orchestrator OrchestratorFacts Samples.

Lemma fetch_in_names : forall w n d v d',
  fetch_in w n d = (v, d') ->
  map fr_name (fetchers d') = (map fr_name (fetchers d) ++ [n])%list.
Proof.
  intros w n d v d' H; unfold fetch_in, maybe_fetch in H.
  destruct (fetch w n); injection H as _ <-; simpl; rewrite map_app; reflexivity.
Qed.

(** X16: without [trust_tools], the forecast, risk and story handlers
    make one fetch, the point-context resolution; the question handler
    makes none; the alerts handler resolves the place and may fetch the
    quick alerts, which it does not gate on [trust_tools]. *)
Theorem untrusted_fetches : forall w r fp d,
  trust_tools w = false -> handler_pack w r = inr (fp, d) ->
  match r with
  | Question => map fr_name (fetchers d) = []
  | Alerts => map fr_name (fetchers d) = ["point_context"] \/
              map fr_name (fetchers d) = ["point_context"; "quick_alerts"]
  | _ => map fr_name (fetchers d) = ["point_context"]
  end.
Proof.
  intros w r fp d Ht H.
  destruct r; simpl in H;
    [unfold question_pack in H | unfold forecast_pack in H | unfold risk_pack in H
    | unfold alerts_pack in H | unfold story_pack in H];
    split_res;
    repeat match goal with
    | E : fetch_in _ _ _ = (_, _) |- _ => apply fetch_in_names in E
    end;
    try (rewrite Ht in *; rewrite ?andb_false_r in *; discriminate).
  all: repeat (match goal with E : map fr_name (fetchers _) = _ |- _ => rewrite E end);
    simpl; first [reflexivity | left; reflexivity | right; reflexivity].
Qed.

Lemma untrusted_fetches_witness :
  exists fp d,
  trust_tools world_untrusted = false /\
  handler_pack world_untrusted (Forecast None "24h" None false) = inr (fp, d) /\
  map fr_name (fetchers d) = ["point_context"].
Proof.
  destruct (handler_pack world_untrusted (Forecast None "24h" None false))
    as [e|[fp d]] eqn:E; [vm_compute in E; discriminate E|].
  exists fp, d; split; [reflexivity|]; split; [reflexivity|].
  exact (untrusted_fetches world_untrusted (Forecast None "24h" None false) fp d eq_refl E).
Defined.

End TrustFacts.

(* ------------------------------------------------------------------ *)
(** ** The manual alerts response *)

Module AlertsResponseFacts.

Import Fetch Forecaster Orchestrator.

Lemma map_res_Forall2 {A B} : forall (f : A -> res B) l ys,
  map_res f l = inr ys -> Forall2 (fun x y => f x = inr y) l ys.
Proof.
  intros f; induction l as [|x l IH]; intros ys H; simpl in H.
  - injection H as <-; constructor.
  - destruct (f x) as [e|y] eqn:Fx; [discriminate|]; simpl in H.
    destruct (map_res f l) as [e|ys'] eqn:Fl; [discriminate|]; simpl in H.
    injection H as <-; constructor; [exact Fx|apply IH; reflexivity].
Qed.

Lemma map_res_total {A B} : forall (f : A -> res B) l,
  (forall x, In x l -> exists y, f x = inr y) -> exists ys, map_res f l = inr ys.
Proof.
  intros f; induction l as [|x l IH]; intros H; simpl; [eexists; reflexivity|].
  destruct (H x (or_introl eq_refl)) as [y Hy]; rewrite Hy; simpl.
  destruct IH as [ys Hys]; [intros z Hz; apply H; right; exact Hz|].
  rewrite Hys; eexists; reflexivity.
Qed.

Lemma map_res_raises {A B} (P : exn -> Prop) : forall (f : A -> res B) l x,
  (forall z e, f z = inl e -> P e) -> In x l -> (exists e, f x = inl e) ->
  exists e, map_res f l = inl e /\ P e.
Proof.
  intros f; induction l as [|y l IH]; intros x HP Hin Hx; [contradiction|]; simpl.
  destruct (f y) as [e|v] eqn:Fy; simpl; [exists e; split; [reflexivity|eapply HP; exact Fy]|].
  destruct Hin as [<-|Hin]; [destruct Hx as [e Hx]; congruence|].
  destruct (IH x HP Hin Hx) as [e [He Pe]]; rewrite He; exists e; split; [reflexivity|exact Pe].
Qed.

(** X17: when every alert record is a dict, [_alerts_response] returns a
    response labelled ["alerts-manual"] with prompt summary
    ["alerts | <place>"], [raw_text] the JSON dump of its sections,
    [meta] = [{"records": n}], [used_feature_fields] [["alerts_quick"]]
    (empty when there is no record), and one risk card per record, in
    order, whose hazard is [record.get("event", "Alert")] and whose level
    is [record.get("severity", "Unknown")]. *)
Theorem alerts_response_records : forall dumps str place records,
  Forall (fun r => is_dict r = true) records ->
  exists resp kvs, alerts_response dumps str place records = inr resp /\
    sections resp = PDict kvs /\
    provider resp = "alerts-manual" /\ prompt_summary resp = "alerts | " ++ place /\
    raw_text resp = dumps (sections resp) /\
    meta resp = PDict [("records", PInt (Z.of_nat (length records)))] /\
    used_feature_fields resp =
      PList (match records with [] => [] | _ => [PStr "alerts_quick"] end) /\
    exists cards, dict_get kvs "risk_cards" = PList cards /\
      Forall2 (fun r c => exists ckvs, c = PDict ckvs /\
                 OpenRouter.py_get_default r "event" (PStr "Alert") = inr (dict_get ckvs "hazard") /\
                 OpenRouter.py_get_default r "severity" (PStr "Unknown") = inr (dict_get ckvs "level"))
        records cards.
Proof.
  intros dumps str place [|r0 rs] Hd.
  - eexists; eexists; split; [reflexivity|]; split; [reflexivity|].
    repeat split; exists []; split; [reflexivity|constructor].
  - unfold alerts_response; cbv zeta beta iota.
    match goal with |- context [map_res ?f (r0 :: rs)] =>
      destruct (map_res_total f (r0 :: rs)) as [tl Htl] end;
      [rewrite Forall_forall in Hd; intros x Hx; specialize (Hd x Hx);
        destruct x; try discriminate Hd; simpl; eexists; reflexivity|].
    rewrite Htl; cbn [bind].
    match goal with |- context [map_res ?f (r0 :: rs)] =>
      destruct (map_res_total f (r0 :: rs)) as [cards Hc] end;
      [rewrite Forall_forall in Hd; intros x Hx; specialize (Hd x Hx);
        destruct x; try discriminate Hd; simpl; eexists; reflexivity|].
    rewrite Hc; cbn [bind].
    eexists; eexists; split; [reflexivity|]; split; [reflexivity|].
    repeat split; exists cards; split; [reflexivity|].
    apply map_res_Forall2 in Hc; revert Hc; apply Forall2_impl.
    intros x c Hx; destruct x; try discriminate Hx; simpl in Hx; injection Hx as <-.
    eexists; split; [reflexivity|]; split; reflexivity.
Qed.

Definition sample_alert : pyval :=
  PDict [("event", PStr "Flood Warning"); ("severity", PStr "Severe");
         ("expires_iso", PNone)].

Lemma alerts_response_records_witness :
  Forall (fun r => is_dict r = true) [sample_alert; PDict []] /\
  exists resp kvs,
    alerts_response (fun _ => "{}") (fun _ => "None") "Boulder" [sample_alert; PDict []]
      = inr resp /\
    sections resp = PDict kvs /\
    provider resp = "alerts-manual" /\ prompt_summary resp = "alerts | " ++ "Boulder" /\
    raw_text resp = (fun _ => "{}") (sections resp) /\
    meta resp = PDict [("records", PInt (Z.of_nat (length [sample_alert; PDict []])))] /\
    used_feature_fields resp =
      PList (match [sample_alert; PDict []] with [] => [] | _ => [PStr "alerts_quick"] end) /\
    exists cards, dict_get kvs "risk_cards" = PList cards /\
      Forall2 (fun r c => exists ckvs, c = PDict ckvs /\
                 OpenRouter.py_get_default r "event" (PStr "Alert") = inr (dict_get ckvs "hazard") /\
                 OpenRouter.py_get_default r "severity" (PStr "Unknown") = inr (dict_get ckvs "level"))
        [sample_alert; PDict []] cards.
Proof.
  assert (H : Forall (fun r => is_dict r = true) [sample_alert; PDict []])
    by (repeat constructor).
  split; [exact H|].
  exact (alerts_response_records (fun _ => "{}") (fun _ => "None") "Boulder" _ H).
Defined.

(** X18: a record that is not a dict (its [.get] fails) makes
    [_alerts_response] raise [AttributeError]. *)
Theorem alerts_response_non_dict : forall dumps str place records r,
  In r records -> is_dict r = false ->
  exists e, alerts_response dumps str place records = inl e /\
    exn_class e = "AttributeError".
Proof.
  intros dumps str place [|r0 rs] r Hin Hr; [contradiction|].
  unfold alerts_response; cbv zeta beta iota.
  match goal with |- context [map_res ?f (r0 :: rs)] =>
    destruct (map_res_raises (fun e => exn_class e = "AttributeError") f (r0 :: rs) r)
      as [e [He Pe]] end.
  - intros [| | | | | |kvs] e H; simpl in H; try (injection H as <-; reflexivity);
      discriminate H.
  - exact Hin.
  - destruct r; try discriminate Hr; simpl; eexists; reflexivity.
  - rewrite He; cbn [bind]; exists e; split; [reflexivity|exact Pe].
Qed.

Lemma alerts_response_non_dict_witness :
  In (PStr "Flood Warning") [sample_alert; PStr "Flood Warning"] /\
  is_dict (PStr "Flood Warning") = false /\
  exists e, alerts_response (fun _ => "{}") (fun _ => "None") "Boulder"
              [sample_alert; PStr "Flood Warning"] = inl e /\
    exn_class e = "AttributeError".
Proof.
  assert (Hin : In (PStr "Flood Warning") [sample_alert; PStr "Flood Warning"])
    by (simpl; tauto).
  split; [exact Hin|]; split; [reflexivity|].
  exact (alerts_response_non_dict (fun _ => "{}") (fun _ => "None") "Boulder" _ _ Hin eq_refl).
Defined.

End AlertsResponseFacts.

(* ------------------------------------------------------------------ *)
(** ** The region summary sentence *)

Module RegionSummaryFacts.

Import Worldview RegionStatsFacts Samples.

Lemma string_app_assoc : forall a b c : string, a ++ (b ++ c) = (a ++ b) ++ c.
Proof. induction a as [|x a IH]; intros b c; simpl; [reflexivity|rewrite IH; reflexivity]. Qed.

Definition head_not_C (s : string) : Prop :=
  exists c r, s = String c r /\ c <> "C"%char.

Lemma head_not_C_app : forall s t, head_not_C s -> head_not_C (s ++ t).
Proof. intros s t [c [r [-> Hc]]]; exists c, (r ++ t); split; [reflexivity|exact Hc]. Qed.

Lemma digit_not_C : forall n : Z, ascii_of_nat (48 + Z.to_nat (n mod 10)) <> "C"%char.
Proof.
  intros n H.
  assert (Hb : (0 <= n mod 10 < 10)%Z) by (apply Z.mod_pos_bound; lia).
  assert (Hk : (Z.to_nat (n mod 10) < 10)%nat) by lia.
  remember (Z.to_nat (n mod 10)) as k eqn:Ek; clear Ek Hb.
  apply (f_equal nat_of_ascii) in H.
  rewrite nat_ascii_embedding in H by lia.
  change (nat_of_ascii "C"%char) with 67%nat in H; lia.
Qed.

Lemma digits_of_pos_head : forall fuel n acc,
  head_not_C acc -> head_not_C (Str.digits_of_pos fuel n acc).
Proof.
  induction fuel as [|fuel IH]; intros n acc H; simpl; [exact H|].
  destruct (Z.div n 10 =? 0)%Z.
  - eexists; eexists; split; [reflexivity|apply digit_not_C].
  - apply IH; eexists; eexists; split; [reflexivity|apply digit_not_C].
Qed.

Lemma string_of_Z_head : forall n, head_not_C (Str.string_of_Z n).
Proof.
  intros n; unfold Str.string_of_Z; destruct (n <? 0)%Z.
  - eexists; eexists; split; [reflexivity|discriminate].
  - rewrite Nat.add_1_r; simpl.
    destruct (n / 10 =? 0)%Z.
    + eexists; eexists; split; [reflexivity|apply digit_not_C].
    + apply digits_of_pos_head; eexists; eexists; split; [reflexivity|apply digit_not_C].
Qed.

Lemma parts_head : forall stats alerts,
  Forall head_not_C (region_summary_parts stats alerts).
Proof.
  intros stats alerts; unfold region_summary_parts.
  assert (Hl : forall c r, c <> "C"%char -> Forall head_not_C [String c r])
    by (intros c r Hc; apply Forall_cons; [exists c, r; split; [reflexivity|exact Hc]|apply Forall_nil]).
  apply Forall_app; split; [|apply Forall_app; split; [|apply Forall_app; split]].
  - destruct (tmin stats), (tmax stats); try apply Forall_nil; apply Hl; discriminate.
  - destruct (pop_max stats) as [p|]; [destruct (_ && _)|]; try apply Forall_nil;
      apply Hl; discriminate.
  - destruct (wind_max stats) as [p|]; [destruct (_ && _)|]; try apply Forall_nil;
      apply Hl; discriminate.
  - destruct alerts; [apply Forall_nil|].
    apply Forall_cons; [apply head_not_C_app, string_of_Z_head|apply Forall_nil].
Qed.

Lemma join_cons : forall sep x l, exists r, Str.join sep (x :: l) = x ++ r.
Proof.
  intros sep x [|y l]; simpl.
  - exists ""; induction x as [|c x IH]; simpl; [reflexivity|rewrite <- IH; reflexivity].
  - eexists; reflexivity.
Qed.

Lemma join_snoc : forall sep l x,
  exists pre, Str.join sep (app l [x]) = pre ++ x /\ (l = [] -> pre = "") /\
    (l <> [] -> exists p, pre = p ++ sep).
Proof.
  intros sep l x; induction l as [|y l IH].
  - exists ""; split; [reflexivity|]; split; [reflexivity|]; intros H; contradiction.
  - destruct IH as [pre [Hj [H0 H1]]].
    destruct l as [|z l].
    + exists (y ++ sep); simpl; split; [rewrite string_app_assoc; reflexivity|].
      split; [discriminate|]; intros _; exists y; reflexivity.
    + exists (y ++ sep ++ pre); split.
      * change (Str.join sep (app (y :: z :: l) [x]))
          with (y ++ sep ++ Str.join sep (app (z :: l) [x])).
        rewrite Hj, !string_app_assoc; reflexivity.
      * split; [discriminate|]; intros _.
        destruct H1 as [p ->]; [discriminate|].
        exists (y ++ sep ++ p); rewrite !string_app_assoc; reflexivity.
Qed.

Lemma min_or_none_nil : forall xs, min_or_none xs = None <-> xs = [].
Proof. intros [|x xs]; simpl; split; congruence. Qed.

Lemma max_or_none_nil : forall xs, max_or_none xs = None <-> xs = [].
Proof. intros [|x xs]; simpl; split; congruence. Qed.

Lemma guard_false_iff : forall xs c, 0 <= c ->
  (match max_or_none xs with
   | Some p => negb (Qeq_bool p 0) && Qltb c p
   | None => false end = false) <-> Forall (fun p => p <= c) xs.
Proof.
  intros xs c Hc.
  pose proof (max_or_none_spec xs) as Hm.
  destruct xs as [|x xs]; [split; intros; [constructor|reflexivity]|].
  destruct Hm as [m [Em [Hin Hall]]]; rewrite Em.
  split.
  - intros H.
    destruct (Qltb c m) eqn:L.
    + apply Qltb_true in L.
      destruct (Qeq_bool m 0) eqn:Z0; [|discriminate H].
      apply Qeq_bool_iff in Z0.
      exfalso; rewrite Z0 in L; apply (Qlt_not_le _ _ L Hc).
    + apply Qltb_false in L.
      revert Hall; apply Forall_impl; intros v Hv; eapply Qle_trans; eauto.
  - intros H.
    rewrite Forall_forall in H; specialize (H m Hin).
    destruct (Qltb c m) eqn:L; [|apply andb_false_r].
    apply Qltb_true in L; exfalso; apply (Qlt_not_le _ _ L H).
Qed.

Lemma stats_cons : forall o os,
  compute_region_stats (o :: os) =
  mkRegionStats (min_or_none (present temp (o :: os))) (max_or_none (present temp (o :: os)))
                (max_or_none (present precip_prob (o :: os)))
                (max_or_none (present wind (o :: os))) (max_or_none (present gust (o :: os))).
Proof. reflexivity. Qed.

Lemma phrase_nil : forall (o : option Q) (g : Q -> bool) (f : Q -> list string),
  (forall p, f p <> []) ->
  (match o with Some p => if g p then f p else [] | None => [] end = [] <->
   match o with Some p => g p | None => false end = false).
Proof.
  intros o g f Hf; destruct o as [p|]; [|split; reflexivity].
  destruct (g p); split; intros H; try reflexivity; [exfalso; exact (Hf p H)|discriminate H].
Qed.

Lemma parts_nil_iff : forall o os alerts,
  region_summary_parts (compute_region_stats (o :: os)) alerts = [] <->
  present temp (o :: os) = [] /\
  Forall (fun p => p <= 30) (present precip_prob (o :: os)) /\
  Forall (fun v => v <= 10) (present wind (o :: os)) /\ alerts = [].
Proof.
  intros o os alerts; rewrite stats_cons; unfold region_summary_parts; cbn [tmin tmax pop_max wind_max].
  pose proof (guard_false_iff (present precip_prob (o :: os)) 30) as Gp.
  pose proof (guard_false_iff (present wind (o :: os)) 10) as Gw.
  rewrite <- Gp by (unfold Qle; simpl; lia).
  rewrite <- Gw by (unfold Qle; simpl; lia).
  clear Gp Gw.
  remember (max_or_none (present precip_prob (o :: os))) as P eqn:EP; clear EP.
  remember (max_or_none (present wind (o :: os))) as W eqn:EW; clear EW.
  split.
  - intros H.
    apply app_eq_nil in H as [Ht H]; apply app_eq_nil in H as [Hp H];
      apply app_eq_nil in H as [Hw Ha].
    split; [|split; [|split]].
    + destruct (present temp (o :: os)) as [|t ts]; [reflexivity|].
      simpl in Ht; discriminate Ht.
    + destruct P as [p|]; [destruct (_ && _); [discriminate Hp|reflexivity]|reflexivity].
    + destruct W as [p|]; [destruct (_ && _); [discriminate Hw|reflexivity]|reflexivity].
    + destruct alerts; [reflexivity|discriminate Ha].
  - intros [Ht [Hp [Hw ->]]].
    rewrite Ht; cbn [min_or_none max_or_none app].
    destruct P as [p|]; [rewrite Hp|]; (destruct W as [v|]; [rewrite Hw|]); reflexivity.
Qed.

(** X19: [_generate_region_summary] answers ["Conditions variable"]
    exactly when the region has observations, none of them reports a
    temperature, no reported precipitation probability exceeds 30, no
    reported wind exceeds 10, and there is no alert. *)
Theorem region_summary_conditions_variable : forall region observations alerts,
  generate_region_summary region observations alerts = "Conditions variable" <->
  observations <> [] /\
  present temp observations = [] /\
  Forall (fun p => p <= 30) (present precip_prob observations) /\
  Forall (fun v => v <= 10) (present wind observations) /\
  alerts = [].
Proof.
  intros region [|o os] alerts; unfold generate_region_summary.
  - split; [discriminate|intros [H _]; contradiction].
  - cbv zeta.
    rewrite <- parts_nil_iff.
    pose proof (parts_head (compute_region_stats (o :: os)) alerts) as Hh.
    destruct (region_summary_parts (compute_region_stats (o :: os)) alerts) as [|x l].
    + split; intros; [split; [discriminate|reflexivity]|reflexivity].
    + split; [|intros [_ H]; discriminate H].
      intros H; exfalso.
      destruct (join_cons "; " x l) as [r Hr]; rewrite Hr in H.
      inversion Hh as [|? ? [c [s [-> Hc]]] _]; subst.
      simpl in H; injection H as Hc' _; exact (Hc Hc').
Qed.

(** X20: when some observation of the region reports a temperature, the
    summary starts with ["Temps <int(lo)>...<int(hi)>..."] where [lo] and
    [hi] are the least and the greatest reported temperatures. *)
Theorem region_summary_temps : forall region observations alerts,
  present temp observations <> [] ->
  exists lo hi rest,
    In lo (present temp observations) /\ Forall (fun t => lo <= t) (present temp observations) /\
    In hi (present temp observations) /\ Forall (fun t => t <= hi) (present temp observations) /\
    generate_region_summary region observations alerts =
      ("Temps " ++ Str.string_of_Z (py_int lo) ++ temps_sep
       ++ Str.string_of_Z (py_int hi) ++ degree_sign) ++ rest.
Proof.
  intros region [|o os] alerts H; [contradiction H; reflexivity|].
  pose proof (min_or_none_spec (present temp (o :: os))) as Hmin.
  pose proof (max_or_none_spec (present temp (o :: os))) as Hmax.
  unfold generate_region_summary; cbv zeta; rewrite stats_cons; unfold region_summary_parts.
  cbn [tmin tmax pop_max wind_max].
  destruct (present temp (o :: os)) as [|t ts]; [contradiction H; reflexivity|].
  destruct Hmin as [lo [Elo [Ilo Flo]]]; destruct Hmax as [hi [Ehi [Ihi Fhi]]].
  rewrite Elo, Ehi; simpl app.
  match goal with |- context [Str.join "; " (?x :: ?l)] =>
    destruct (join_cons "; " x l) as [r Hr]; rewrite Hr end.
  exists lo, hi, r; repeat split; assumption.
Qed.

(** X21: when the region has observations and alerts, the summary ends
    with ["<n> active alerts"], [n] the number of alerts, either alone or
    after a ["; "] separator. *)
Theorem region_summary_alerts : forall region observations alerts,
  observations <> [] -> alerts <> [] ->
  exists pre,
    generate_region_summary region observations alerts =
      pre ++ (Str.string_of_Z (Z.of_nat (length alerts)) ++ " active alerts") /\
    (pre = "" \/ exists p, pre = p ++ "; ").
Proof.
  intros region [|o os] alerts Ho Ha; [contradiction Ho; reflexivity|].
  unfold generate_region_summary; cbv zeta.
  set (a := Str.string_of_Z (Z.of_nat (length alerts)) ++ " active alerts").
  assert (E : exists l, region_summary_parts (compute_region_stats (o :: os)) alerts = app l [a]).
  { unfold region_summary_parts.
    destruct alerts as [|al als]; [contradiction Ha; reflexivity|].
    eexists; rewrite !app_assoc; reflexivity. }
  destruct E as [l El]; rewrite El.
  destruct (join_snoc "; " l a) as [pre [Hj [H0 H1]]].
  destruct (app l [a]) eqn:Ela; [destruct l; discriminate Ela|].
  cbv beta iota; rewrite Hj.
  exists pre; split; [reflexivity|].
  destruct l; [left; apply H0; reflexivity|right; apply H1; discriminate].
Qed.

Lemma region_summary_temps_witness :
  present temp sample_obs <> [] /\
  exists lo hi rest,
    In lo (present temp sample_obs) /\ Forall (fun t => lo <= t) (present temp sample_obs) /\
    In hi (present temp sample_obs) /\ Forall (fun t => t <= hi) (present temp sample_obs) /\
    generate_region_summary "US" sample_obs [] =
      ("Temps " ++ Str.string_of_Z (py_int lo) ++ temps_sep
       ++ Str.string_of_Z (py_int hi) ++ degree_sign) ++ rest.
Proof.
  assert (H : present temp sample_obs <> []) by (intros E; vm_compute in E; discriminate E).
  split; [exact H|].
  exact (region_summary_temps "US" sample_obs [] H).
Defined.

Lemma region_summary_alerts_witness :
  sample_obs <> [] /\ [sample_flood] <> [] /\
  exists pre,
    generate_region_summary "US" sample_obs [sample_flood] =
      pre ++ (Str.string_of_Z (Z.of_nat (length [sample_flood])) ++ " active alerts") /\
    (pre = "" \/ exists p, pre = p ++ "; ").
Proof.
  assert (Ho : sample_obs <> []) by (intros E; vm_compute in E; discriminate E).
  assert (Ha : [sample_flood] <> []) by discriminate.
  split; [exact Ho|]; split; [exact Ha|].
  exact (region_summary_alerts "US" sample_obs [sample_flood] Ho Ha).
Defined.

End RegionSummaryFacts.
